(** * Lokomotive (lokoctl): cluster and component reconciliation orchestration

    A shallow embedding of the parts of lokoctl that drive the Terraform
    execution plan, the control-plane upgrades of [cluster apply], the
    readiness polling of a Deployment, component deletion through Helm, the
    AKS configuration checks and root-module rendering, the namespace update
    of [k8sutil] and the kubeconfig path resolution.

    Go's [ctxLogger.Fatalf] ends the process: it is modelled as an outcome
    that stops the computation ([Some msg] in the fatal slot).  External
    services (the Terraform executor, Helm, the Kubernetes API) are
    parameters whose answers are given as inputs. *)

From Stdlib Require Import Ascii String ZArith.
From stdpp Require Import base list gmap strings.

Local Open Scope string_scope.

(** Go's [%q] verb on a string without special characters. *)
Definition doubleQuote : string := String (Ascii.ascii_of_nat 34) EmptyString.

Definition quote (s : string) : string := doubleQuote ++ s ++ doubleQuote.

(** Go's [strings.Contains(s, substr)]. *)
Fixpoint contains (s substr : string) : bool :=
  String.prefix substr s ||
  match s with
  | EmptyString => false
  | String _ s' => contains s' substr
  end.

(* ===================================================================== *)
(** ** cli/cmd/cluster-apply.go: runClusterApply                         *)
(* ===================================================================== *)

Module ClusterApply.

Section ExecutionPlan.

(** The state of the [terraform.Executor] (working directory, state file). *)
Variable Executor : Type.

(** [ex.Execute(args...)]: the executor runs [terraform args...]. *)
Variable Execute : Executor -> list string -> Executor * option string.

(** platform.TerraformExecutionStep *)
Record TerraformExecutionStep := {
  Description : string;
  Args : list string;
  PreExecutionHook : option (Executor -> Executor * option string)
}.

(** What the loop hands to the executor, in order. *)
Inductive event :=
| EvHook (description : string)
| EvExec (args : list string).

Definition hookFailed (step : TerraformExecutionStep) (err : string) : string :=
  "Pre-execution hook for step " ++ quote (Description step) ++ " failed: " ++ err.

Definition execFailed (step : TerraformExecutionStep) (err : string) : string :=
  "Execution of step " ++ quote (Description step) ++ " failed: " ++ err.

(** [err := ex.Execute(step.Args...); if err != nil { Fatalf(...) }] *)
Definition runExecute (ex : Executor) (step : TerraformExecutionStep)
  : Executor * list event * option string :=
  let '(ex', r) := Execute ex (Args step) in
  (ex', [EvExec (Args step)],
   match r with Some err => Some (execFailed step err) | None => None end).

(** One iteration of the loop body of lines 197-210. *)
Definition runStep (ex : Executor) (step : TerraformExecutionStep)
  : Executor * list event * option string :=
  match PreExecutionHook step with
  | None => runExecute ex step
  | Some hook =>
      let '(ex1, r) := hook ex in
      match r with
      | Some err => (ex1, [EvHook (Description step)], Some (hookFailed step err))
      | None =>
          let '(ex2, evs, r2) := runExecute ex1 step in
          (ex2, EvHook (Description step) :: evs, r2)
      end
  end.

(** [for _, step := range c.TerraformExecutionPlan() { ... }]; a [Some msg]
    result is the [Fatalf] that ends the run. *)
Fixpoint runPlan (ex : Executor) (plan : list TerraformExecutionStep)
  : Executor * list event * option string :=
  match plan with
  | [] => (ex, [], None)
  | step :: rest =>
      let '(ex1, evs1, r1) := runStep ex step in
      match r1 with
      | Some msg => (ex1, evs1, Some msg)
      | None =>
          let '(ex2, evs2, r2) := runPlan ex1 rest in
          (ex2, (evs1 ++ evs2)%list, r2)
      end
  end.

(** The events of a step that ran to completion: hook (when present), then
    its arguments. *)
Definition step_events (step : TerraformExecutionStep) : list event :=
  match PreExecutionHook step with
  | Some _ => [EvHook (Description step); EvExec (Args step)]
  | None => [EvExec (Args step)]
  end.

(** The argument lists passed to the executor, in order. *)
Definition executed (evs : list event) : list (list string) :=
  omap (fun e => match e with EvExec a => Some a | EvHook _ => None end) evs.

(** The trace of a run: either every step ran, or step [k] failed in its hook
    (after the steps before it ran) or in its Execute call. *)
Definition plan_trace_ok (plan : list TerraformExecutionStep)
  (res : Executor * list event * option string) : Prop :=
  let '(_, evs, r) := res in
  (r = None /\ evs = concat (map step_events plan)) \/
  (exists k step err, plan !! k = Some step /\
     ((PreExecutionHook step <> None /\ r = Some (hookFailed step err) /\
       evs = (concat (map step_events (take k plan)) ++ [EvHook (Description step)])%list) \/
      (r = Some (execFailed step err) /\
       evs = concat (map step_events (take (S k) plan))))).

End ExecutionPlan.

Arguments Build_TerraformExecutionStep {Executor} _ _ _.
Arguments Description {Executor} _.
Arguments Args {Executor} _.
Arguments PreExecutionHook {Executor} _.
Arguments hookFailed {Executor} _ _.
Arguments execFailed {Executor} _ _.
Arguments runExecute {Executor} _ _ _.
Arguments runStep {Executor} _ _ _.
Arguments runPlan {Executor} _ _ _.
Arguments step_events {Executor} _.
Arguments plan_trace_ok {Executor} _ _.

(** Lines 231-238: the releases to upgrade, in the order of
    [c.ControlPlaneCharts()], with [kubelet] left out unless
    [--upgrade-kubelets] is set. *)
Fixpoint controlplaneReleases (charts : list string) (upgradeKubelets : bool) : list string :=
  match charts with
  | [] => []
  | r :: rest =>
      if String.eqb r "kubelet" && negb upgradeKubelets
      then controlplaneReleases rest upgradeKubelets
      else r :: controlplaneReleases rest upgradeKubelets
  end.

(** Lines 240-242: [cu.upgradeComponent(c)] for each release; a [Some msg]
    answer of [upgradeComponent] is one of its [Fatalf] calls, which ends the
    run.  The first component is the list of components it was called on. *)
Fixpoint upgradeReleases (upgradeComponent : string -> option string) (releases : list string)
  : list string * option string :=
  match releases with
  | [] => ([], None)
  | c :: rest =>
      match upgradeComponent c with
      | Some msg => ([c], Some msg)
      | None => let '(called, r) := upgradeReleases upgradeComponent rest in (c :: called, r)
      end
  end.

(** Lines 219-243: [if exists && !c.Managed() { ... }] ([exists] is a keyword here). *)
Definition controlplaneUpgrade (exists' managed upgradeKubelets : bool) (charts : list string)
  (upgradeComponent : string -> option string) : list string * option string :=
  if exists' && negb managed
  then upgradeReleases upgradeComponent (controlplaneReleases charts upgradeKubelets)
  else ([], None).

End ClusterApply.

(* ===================================================================== *)
(** ** cli/cmd/utils.go: waitForDeployment                               *)
(* ===================================================================== *)

Module Readiness.

(** What [cs.AppsV1().Deployments(ns).Get(name)] answers at one poll: a
    not-found error, another error, or the Deployment with its
    [Status.Replicas] and [Status.AvailableReplicas] (int32, as Z). *)
Inductive getResult :=
| GetNotFound
| GetError (err : string)
| GetFound (replicas availableReplicas : Z).

(** The condition closure of lines 206-229: printed lines and [(done, err)]. *)
Definition deploymentCondition (name : string) (o : getResult)
  : list string * (bool * option string) :=
  match o with
  | GetNotFound => (["waiting for deployment " ++ name ++ " to be available"], (false, None))
  | GetError err => ([], (false, Some err))
  | GetFound replicas availableReplicas =>
      if Z.eqb replicas 0
      then (["no replicas scheduled for deployment " ++ name], (false, None))
      else if Z.eqb availableReplicas replicas
      then (["Admission Webhook applied successfully"], (true, None))
      else ([], (false, None))
  end.

(** The outcome of [wait.PollImmediate]. *)
Inductive pollResult :=
| PollDone
| PollErr (err : string)
| ErrWaitTimeout.

Definition errWaitTimeoutMsg : string := "timed out waiting for the condition".

(** [wait.PollImmediate(retryInterval, timeout, condition)]: the condition is
    run at once and then once per interval; [obs] is what the Get call answers
    at each poll made before the deadline.  An error from the condition ends
    polling with that error, [done] ends it with success, and running out of
    polls before the deadline is [ErrWaitTimeout]. *)
Fixpoint pollImmediate (condition : getResult -> list string * (bool * option string))
  (obs : list getResult) : list string * pollResult :=
  match obs with
  | [] => ([], ErrWaitTimeout)
  | o :: rest =>
      let '(out, (done, err)) := condition o in
      match err with
      | Some e => (out, PollErr e)
      | None =>
          if done then (out, PollDone)
          else let '(out', r) := pollImmediate condition rest in ((out ++ out')%list, r)
      end
  end.

Definition pollErrorMsg (r : pollResult) : string :=
  match r with
  | PollDone => ""
  | PollErr e => e
  | ErrWaitTimeout => errWaitTimeoutMsg
  end.

(** [waitForDeployment(cs, ns, name, retryInterval, timeout)]: the Go function
    returns nothing; its printed lines and its (unit) result. *)
Definition waitForDeployment (name : string) (obs : list getResult) : list string * unit :=
  let '(out, r) := pollImmediate (deploymentCondition name) obs in
  match r with
  | PollDone => (out, tt)
  | _ => ((out ++ [("error while waiting for the deployment: " ++ pollErrorMsg r)%string])%list, tt)
  end.

(** The readiness predicate in the words of the spec:
    [availableReplicas == desiredReplicas && desiredReplicas > 0]. *)
Definition spec_ready (o : getResult) : bool :=
  match o with
  | GetFound replicas availableReplicas => Z.eqb availableReplicas replicas && Z.ltb 0 replicas
  | _ => false
  end.

(** An observation that is not ready: the Deployment is not found yet, or it
    is found with a (non-negative) replica count that fails the predicate. *)
Definition not_ready (o : getResult) : Prop :=
  o = GetNotFound \/
  exists replicas availableReplicas,
    o = GetFound replicas availableReplicas /\ (0 <= replicas)%Z /\ spec_ready o = false.


End Readiness.

(* ===================================================================== *)
(** ** cli/cmd/component-delete.go and cli/cmd/cluster.go: Helm releases *)
(* ===================================================================== *)

Module Helm.

(** Errors of the Helm and Kubernetes APIs. *)
Inductive apiError :=
| ErrReleaseNotFound      (** Helm's [driver.ErrReleaseNotFound]: no history *)
| ErrNotFound             (** a Kubernetes NotFound status *)
| ErrConflict (msg : string) (** a Kubernetes Conflict status (409) *)
| ErrOther (msg : string). (** any other failure (API unreachable, forbidden, ...) *)

Definition errString (e : apiError) : string :=
  match e with
  | ErrReleaseNotFound => "release: not found"
  | ErrNotFound => "not found"
  | ErrConflict msg => msg
  | ErrOther msg => msg
  end.

(** The live cluster: releases with history, as (namespace, release name),
    the namespaces, and the namespaces among them that are Terminating: a
    deleted namespace stays, Terminating, until the namespace controller has
    deleted every object in it. *)
Record clusterState := {
  releases : gset (string * string);
  namespaces : gset string;
  terminating : gset string
}.

(** The answers of the services besides what the cluster state decides: a
    [Some] field is a failure of that call. *)
Record helmEnv := {
  helmActionConfigErr : option string;  (** util.HelmActionConfig *)
  historyFailure : option string;       (** a history error other than not-found *)
  uninstallFailure : option string;     (** an uninstall failure before anything is deleted *)
  uninstallDeleteErr : option string;   (** errors deleting the release's resources *)
  readKubeconfigErr : option string;    (** ioutil.ReadFile(kubeconfig) *)
  clientsetErr : option string;         (** k8sutil.NewClientset *)
  nsDeleteFailure : option string;      (** a namespace Delete error other than NotFound *)
  chartErr : option string;             (** getControlplaneChart *)
  valuesErr : option string;            (** getControlplaneValues *)
  installFailure : option string;
  upgradeFailure : option string
}.

(** [action.NewHistory(cfg).Run(name)]: only its error matters here. *)
Definition historyRun (env : helmEnv) (st : clusterState) (ns name : string) : option apiError :=
  match historyFailure env with
  | Some msg => Some (ErrOther msg)
  | None => if bool_decide ((ns, name) ∈ releases st) then None else Some ErrReleaseNotFound
  end.

(** [action.NewUninstall(cfg).Run(name)]: a failure before the resources
    are deleted (a pre-delete hook, storing the release as uninstalling)
    keeps the release; errors deleting its resources do not stop Helm from
    purging the release history, and are returned afterwards. *)
Definition uninstallRun (env : helmEnv) (st : clusterState) (ns name : string)
  : clusterState * option apiError :=
  match uninstallFailure env with
  | Some msg => (st, Some (ErrOther msg))
  | None =>
      if bool_decide ((ns, name) ∈ releases st)
      then
        let st' := {| releases := releases st ∖ {[(ns, name)]}; namespaces := namespaces st;
                      terminating := terminating st |} in
        match uninstallDeleteErr env with
        | Some msg => (st', Some (ErrOther ("uninstallation completed with 1 error(s): " ++ msg)))
        | None => (st', None)
        end
      else (st, Some ErrReleaseNotFound)
  end.

(** The Conflict the API server answers to the deletion of a namespace that
    is already Terminating. *)
Definition nsTerminatingConflict (ns : string) : string :=
  "Operation cannot be fulfilled on namespaces " ++ quote ns ++
  ": The system is ensuring all content is removed from this namespace.  " ++
  "Upon completion, this namespace will automatically be purged by the system.".

(** [cs.CoreV1().Namespaces().Delete(ns)]: the namespace becomes
    Terminating; deleting it again before the namespace controller is done
    is a Conflict. *)
Definition namespaceDelete (env : helmEnv) (st : clusterState) (ns : string)
  : clusterState * option apiError :=
  match nsDeleteFailure env with
  | Some msg => (st, Some (ErrOther msg))
  | None =>
      if bool_decide (ns ∈ namespaces st)
      then
        if bool_decide (ns ∈ terminating st)
        then (st, Some (ErrConflict (nsTerminatingConflict ns)))
        else ({| releases := releases st; namespaces := namespaces st;
                 terminating := terminating st ∪ {[ns]} |}, None)
      else (st, Some ErrNotFound)
  end.

(** The Kubernetes namespace controller once it has finished: every object
    of a Terminating namespace is deleted, the Helm release records stored
    in it included, and the namespace is removed. *)
Definition namespaceController (st : clusterState) : clusterState :=
  {| releases := filter (fun p : string * string => p.1 ∉ terminating st) (releases st);
     namespaces := namespaces st ∖ terminating st;
     terminating := ∅ |}.

(** component-delete.go, deleteNS. *)
Definition deleteNS (env : helmEnv) (st : clusterState) (ns : string) : clusterState * option string :=
  match readKubeconfigErr env with
  | Some e => (st, Some ("failed to read kubeconfig file: " ++ e))
  | None =>
      match clientsetErr env with
      | Some e => (st, Some e)
      | None =>
          let '(st', r) := namespaceDelete env st ns in
          match r with
          | None => (st', None)
          | Some ErrNotFound => (st', None)   (* errors.IsNotFound(err) *)
          | Some e => (st', Some (errString e))
          end
      end
  end.

(** The end of a Go call: a panic or a returned error. *)
Inductive goResult :=
| Panic (msg : string)
| Ret (err : option string).

(** component-delete.go, deleteHelmRelease: the new state, whether uninstall
    was invoked, and the result. *)
Definition deleteHelmRelease (env : helmEnv) (st : clusterState) (name ns : string)
  (deleteNSBool : bool) : clusterState * bool * goResult :=
  if String.eqb name "" then (st, false, Panic "component name is empty") else
  if String.eqb ns "" then (st, false, Panic ("component " ++ name ++ " namespace is empty")) else
  match helmActionConfigErr env with
  | Some e => (st, false, Ret (Some ("failed preparing helm client: " ++ e)))
  | None =>
      let '(st1, invoked, r1) :=
        match historyRun env st ns name with
        | None =>
            let '(st', r) := uninstallRun env st ns name in
            (st', true, option_map errString r)
        | Some _ => (st, false, None)    (* the history error is ignored *)
        end in
      match r1 with
      | Some e => (st1, invoked, Ret (Some e))
      | None =>
          if deleteNSBool
          then let '(st2, r2) := deleteNS env st1 ns in (st2, invoked, Ret r2)
          else (st1, invoked, Ret None)
      end
  end.

(** Modelled from the spec: [util.ReleaseExists(actionConfig, name)] of
    pkg/components/util, which is not in the sources: it queries the release
    history; absence of history (and no other error class) means "does not
    exist", and any other error is returned to the caller. *)
Definition ReleaseExists (env : helmEnv) (st : clusterState) (ns name : string)
  : bool * option string :=
  match historyRun env st ns name with
  | None => (true, None)
  | Some ErrReleaseNotFound => (false, None)
  | Some e => (false, Some (errString e))
  end.

(** The Helm operations [upgradeComponent] performs. *)
Inductive cpAction := CPInstall | CPUpgrade.

(** cluster.go, controlplaneUpgrader.upgradeComponent: the actions performed
    and the [Fatalf] message that ends the run, if any. *)
Definition upgradeComponent (env : helmEnv) (st : clusterState) (component : string)
  : list cpAction * option string :=
  match helmActionConfigErr env with
  | Some e => ([], Some ("Failed initializing helm: " ++ e))
  | None =>
  match chartErr env with
  | Some e => ([], Some ("Loading chart from assets failed: " ++ e))
  | None =>
  match valuesErr env with
  | Some e => ([], Some ("Failed to get kubernetes values.yaml from Terraform: " ++ e))
  | None =>
      let '(exists', err) := ReleaseExists env st "kube-system" component in
      match err with
      | Some e => ([], Some ("Failed checking if controlplane component is installed: " ++ e))
      | None =>
          match (if exists' then None else installFailure env) with
          | Some e => (if exists' then [] else [CPInstall],
                       Some ("Installing controlplane component failed: " ++ e))
          | None =>
              let installed := if exists' then [] else [CPInstall] in
              match upgradeFailure env with
              | Some e => ((installed ++ [CPUpgrade])%list, Some ("Updating chart failed: " ++ e))
              | None => ((installed ++ [CPUpgrade])%list, None)
              end
          end
      end
  end end end.

(** The services that deleteHelmRelease relies on besides the release and
    namespace state answer normally. *)
Definition deleteInfraHealthy (env : helmEnv) (deleteNSBool : bool) : Prop :=
  helmActionConfigErr env = None /\
  (deleteNSBool = true ->
     readKubeconfigErr env = None /\ clientsetErr env = None /\ nsDeleteFailure env = None).


(** component-delete.go, deleteComponents: each component is given by its
    [Metadata().Name] and [Metadata().Namespace]; the new state, the lines
    printed and the result. *)
Fixpoint deleteComponents (env : helmEnv) (st : clusterState) (deleteNamespace : bool)
  (componentObjects : list (string * string)) : clusterState * list string * goResult :=
  match componentObjects with
  | [] => (st, [""], Ret None)
  | (name, ns) :: rest =>
      let started := "Deleting component '" ++ name ++ "'..." in
      let '(st1, _, r) := deleteHelmRelease env st name ns deleteNamespace in
      match r with
      | Ret None =>
          let '(st2, out, r2) := deleteComponents env st1 deleteNamespace rest in
          (st2, started :: ("Successfully deleted component " ++ quote name ++ "!") :: out, r2)
      | _ => (st1, [started], r)
      end
  end.

End Helm.

(* ===================================================================== *)
(** ** pkg/platform/aks/aks.go and pkg/platform/platform.go              *)
(* ===================================================================== *)

Module Aks.

Definition clientIDEnv : string := "LOKOMOTIVE_AKS_CLIENT_ID".
Definition clientSecretEnv : string := "LOKOMOTIVE_AKS_CLIENT_SECRET".
Definition subscriptionIDEnv : string := "LOKOMOTIVE_AKS_SUBSCRIPTION_ID".
Definition tenantIDEnv : string := "LOKOMOTIVE_AKS_TENANT_ID".

(** [worker_pool] block; [count] is a Go int. *)
Record workerPool := {
  Name : string;
  Count : Z;
  VMSize : string;
  Labels : gmap string string;
  Taints : list string
}.

(** aks.Config; [Tags] is a Go map, [None] being the nil map. *)
Record Config := {
  AssetDir : string;
  ClusterName : string;
  Tags : option (gmap string string);
  TenantID : string;
  SubscriptionID : string;
  ClientID : string;
  ClientSecret : string;
  Location : string;
  ApplicationName : string;
  ResourceGroupName : string;
  ManageResourceGroup : bool;
  WorkerPools : list workerPool;
  KubernetesVersion : string
}.

(** [conf.Tags = tags] *)
Definition setTags (c : Config) (tags : option (gmap string string)) : Config :=
  {| AssetDir := AssetDir c; ClusterName := ClusterName c; Tags := tags;
     TenantID := TenantID c; SubscriptionID := SubscriptionID c; ClientID := ClientID c;
     ClientSecret := ClientSecret c; Location := Location c;
     ApplicationName := ApplicationName c; ResourceGroupName := ResourceGroupName c;
     ManageResourceGroup := ManageResourceGroup c; WorkerPools := WorkerPools c;
     KubernetesVersion := KubernetesVersion c |}.

Inductive severity := DiagError | DiagWarning.

(** hcl.Diagnostic *)
Record diagnostic := {
  Severity : severity;
  Summary : string;
  Detail : string
}.

(** checkNotEmptyWorkers *)
Definition checkNotEmptyWorkers (c : Config) : list diagnostic :=
  match WorkerPools c with
  | [] => [{| Severity := DiagError; Summary := "At least one worker pool must be defined";
              Detail := "Make sure to define at least one worker pool block in your cluster block" |}]
  | _ => []
  end.

Definition duplicatedPool (name : string) : diagnostic :=
  {| Severity := DiagError; Summary := "Worker pool names should be unique";
     Detail := "Worker pool '" ++ name ++ "' is duplicated" |}.

(** The loop of checkWorkerPoolNamesUnique over [dup := make(map[string]bool)];
    a missing key reads as [false]. *)
Fixpoint namesUniqueLoop (dup : gmap string bool) (pools : list workerPool) : list diagnostic :=
  match pools with
  | [] => []
  | w :: rest =>
      if negb (default false (dup !! Name w))
      then namesUniqueLoop (<[Name w := true]> dup) rest
      else duplicatedPool (Name w) :: namesUniqueLoop dup rest
  end.

(** checkWorkerPoolNamesUnique *)
Definition checkWorkerPoolNamesUnique (c : Config) : list diagnostic :=
  namesUniqueLoop ∅ (WorkerPools c).

(** checkWorkerPools *)
Definition checkWorkerPools (c : Config) : list diagnostic :=
  concat (map (fun w =>
    ((if String.eqb (VMSize w) "" then
        [{| Severity := DiagError;
            Summary := "pool " ++ quote (Name w) ++ ": VMSize field can't be empty";
            Detail := "" |}] else []) ++
     (if Z.leb (Count w) 0 then
        [{| Severity := DiagError;
            Summary := "pool " ++ quote (Name w) ++ ": count must be bigger than 0";
            Detail := "" |}] else []))%list) (WorkerPools c)).

Definition envDetail (field env : string) : string :=
  quote field ++ " field is empty and " ++ quote env ++
  " environment variable is not defined. At least one of these should be defined".

(** checkRequiredFields; [getenv] is [os.Getenv] and [rangeOrder] the order
    in which Go's [range] visits the map [f] (unspecified in Go). *)
Definition checkRequiredFields (getenv : string -> string)
  (rangeOrder : gmap string string -> list (string * string)) (c : Config) : list diagnostic :=
  ((if String.eqb (SubscriptionID c) "" && String.eqb (getenv subscriptionIDEnv) "" then
      [{| Severity := DiagError; Summary := "cannot find the Azure subscription ID";
          Detail := envDetail "SubscriptionID" subscriptionIDEnv |}] else []) ++
   (if String.eqb (TenantID c) "" && String.eqb (getenv tenantIDEnv) "" then
      [{| Severity := DiagError; Summary := "cannot find the Azure client ID";
          Detail := envDetail "TenantID" tenantIDEnv |}] else []) ++
   let f : gmap string string :=
     <["AssetDir" := AssetDir c]> (<["ClusterName" := ClusterName c]>
       (<["ResourceGroupName" := ResourceGroupName c]> ∅)) in
   concat (map (fun '(k, v) =>
     if String.eqb v "" then
       [{| Severity := DiagError; Summary := "field " ++ quote k ++ " can't be empty"; Detail := "" |}]
     else []) (rangeOrder f)))%list.

(** checkCredentials *)
Definition checkCredentials (getenv : string -> string) (c : Config) : list diagnostic :=
  if negb (String.eqb (ApplicationName c) "") then
    ((if negb (String.eqb (ClientID c) "") then
        [{| Severity := DiagError; Summary := "ClientID and ApplicationName are mutually exclusive";
            Detail := "" |}] else []) ++
     (if negb (String.eqb (ClientSecret c) "") then
        [{| Severity := DiagError; Summary := "ClientSecret and ApplicationName are mutually exclusive";
            Detail := "" |}] else []))%list
  else
    ((if String.eqb (ClientSecret c) "" && String.eqb (getenv clientSecretEnv) "" then
        [{| Severity := DiagError; Summary := "cannot find the Azure client secret";
            Detail := envDetail "ClientSecret" clientSecretEnv |}] else []) ++
     (if String.eqb (ClientID c) "" && String.eqb (getenv clientIDEnv) "" then
        [{| Severity := DiagError; Summary := "cannot find the Azure client ID";
            Detail := envDetail "ClientID" clientIDEnv |}] else []))%list.

(** Config.validate: every check's diagnostics, appended in order. *)
Definition validate (getenv : string -> string)
  (rangeOrder : gmap string string -> list (string * string)) (c : Config) : list diagnostic :=
  (checkNotEmptyWorkers c ++ checkWorkerPoolNamesUnique c ++ checkWorkerPools c ++
   checkCredentials getenv c ++ checkRequiredFields getenv rangeOrder c)%list.

(** The duplicated pool names in the words of the spec: the name of every
    pool that repeats the name of an earlier pool. *)
Definition duplicatedNames (pools : list workerPool) : list string :=
  concat (imap (fun i w =>
    if bool_decide (Name w ∈ map Name (take i pools)) then [Name w] else []) pools).

(** platform.AppendVersionTag(&conf.Tags): a nil map is replaced by an empty
    one and, when [version.Version] is set, the lokoctl-version tag is set. *)
Definition AppendVersionTag (version : string) (tags : option (gmap string string))
  : option (gmap string string) :=
  let m := match tags with None => ∅ | Some m => m end in
  Some (if String.eqb version "" then m else <["lokoctl-version" := version]> m).

(** aks.Cluster: the configuration and the rendered root module. *)
Record Cluster := {
  config : Config;
  rootModule : string
}.

Section Render.

(** [version.Version], fixed at build time. *)
Variable version : string.
(** The result of parsing the constant [terraformConfigTmpl]. *)
Variable templateParseErr : option string.
(** [t.Execute(&rendered, conf)]: text/template execution is a function of the
    data it is given (output, or an execution error). *)
Variable executeTemplate : Config -> string + string.

(** renderRootModule(conf): the configuration after the call (its [Tags] are
    updated through the pointer) and the rendered module or the error. *)
Definition renderRootModule (conf : Config) : Config * (string + string) :=
  match templateParseErr with
  | Some e => (conf, inr ("parsing template: " ++ e))
  | None =>
      let conf' := setTags conf (AppendVersionTag version (Tags conf)) in
      match executeTemplate conf' with
      | inl rendered => (conf', inl rendered)
      | inr e => (conf', inr ("rendering template: " ++ e))
      end
  end.

(** NewCluster(c) *)
Definition NewCluster (c : Config) : Config * (Cluster + string) :=
  let '(c', r) := renderRootModule c in
  match r with
  | inl rendered => (c', inl {| config := c'; rootModule := rendered |})
  | inr e => (c', inr ("rendering root module: " ++ e))
  end.

End Render.

(** (c *Cluster) TerraformRootModule() *)
Definition TerraformRootModule (c : Cluster) : string := rootModule c.

(** [kubernetesVersion] *)
Definition kubernetesVersion : string := "1.16.10".

(** The configuration NewConfig decodes into: its default values. *)
Definition defaultConfig : Config :=
  {| AssetDir := ""; ClusterName := ""; Tags := None; TenantID := ""; SubscriptionID := "";
     ClientID := ""; ClientSecret := ""; Location := "West Europe"; ApplicationName := "";
     ResourceGroupName := ""; ManageResourceGroup := true; WorkerPools := [];
     KubernetesVersion := kubernetesVersion |}.

(** [c.ClientSecret = v] *)
Definition setClientSecret (c : Config) (v : string) : Config :=
  {| AssetDir := AssetDir c; ClusterName := ClusterName c; Tags := Tags c;
     TenantID := TenantID c; SubscriptionID := SubscriptionID c; ClientID := ClientID c;
     ClientSecret := v; Location := Location c;
     ApplicationName := ApplicationName c; ResourceGroupName := ResourceGroupName c;
     ManageResourceGroup := ManageResourceGroup c; WorkerPools := WorkerPools c;
     KubernetesVersion := KubernetesVersion c |}.

(** [c.SubscriptionID = v] *)
Definition setSubscriptionID (c : Config) (v : string) : Config :=
  {| AssetDir := AssetDir c; ClusterName := ClusterName c; Tags := Tags c;
     TenantID := TenantID c; SubscriptionID := v; ClientID := ClientID c;
     ClientSecret := ClientSecret c; Location := Location c;
     ApplicationName := ApplicationName c; ResourceGroupName := ResourceGroupName c;
     ManageResourceGroup := ManageResourceGroup c; WorkerPools := WorkerPools c;
     KubernetesVersion := KubernetesVersion c |}.

(** [c.ClientID = v] *)
Definition setClientID (c : Config) (v : string) : Config :=
  {| AssetDir := AssetDir c; ClusterName := ClusterName c; Tags := Tags c;
     TenantID := TenantID c; SubscriptionID := SubscriptionID c; ClientID := v;
     ClientSecret := ClientSecret c; Location := Location c;
     ApplicationName := ApplicationName c; ResourceGroupName := ResourceGroupName c;
     ManageResourceGroup := ManageResourceGroup c; WorkerPools := WorkerPools c;
     KubernetesVersion := KubernetesVersion c |}.

(** [c.TenantID = v] *)
Definition setTenantID (c : Config) (v : string) : Config :=
  {| AssetDir := AssetDir c; ClusterName := ClusterName c; Tags := Tags c;
     TenantID := v; SubscriptionID := SubscriptionID c; ClientID := ClientID c;
     ClientSecret := ClientSecret c; Location := Location c;
     ApplicationName := ApplicationName c; ResourceGroupName := ResourceGroupName c;
     ManageResourceGroup := ManageResourceGroup c; WorkerPools := WorkerPools c;
     KubernetesVersion := KubernetesVersion c |}.

Section NewConfigSec.

(** The HCL body of the cluster block. *)
Variable hclBody : Type.
(** [gohcl.DecodeBody( *b, ctx, c)]: the configuration [c] after decoding the
    body into it, and the decoding diagnostics. *)
Variable DecodeBody : hclBody -> Config -> Config * list diagnostic.

(** NewConfig(b, ctx): the configuration (a nil pointer as [None]) and the
    diagnostics. *)
Definition NewConfig (getenv : string -> string)
  (rangeOrder : gmap string string -> list (string * string)) (b : option hclBody)
  : option Config * list diagnostic :=
  match b with
  | None => (None, [])
  | Some b =>
      let '(c, d) := DecodeBody b defaultConfig in
      match d with
      | _ :: _ => (None, d)
      | [] =>
          match validate getenv rangeOrder c with
          | (_ :: _) as d' => (None, d')
          | [] =>
              let c1 := if String.eqb (ClientSecret c) ""
                        then setClientSecret c (getenv clientSecretEnv) else c in
              let c2 := if String.eqb (SubscriptionID c1) ""
                        then setSubscriptionID c1 (getenv subscriptionIDEnv) else c1 in
              let c3 := if String.eqb (ClientID c2) ""
                        then setClientID c2 (getenv clientIDEnv) else c2 in
              let c4 := if String.eqb (TenantID c3) ""
                        then setTenantID c3 (getenv tenantIDEnv) else c3 in
              (Some c4, [])
          end
      end
  end.

End NewConfigSec.

Arguments NewConfig {hclBody} _ _ _ _.

(** Go's [int] (64 bits): the result of an addition wraps around. *)
Definition wrapInt (z : Z) : Z := ((z + 2 ^ 63) mod 2 ^ 64 - 2 ^ 63)%Z.

(** (c *Cluster) AssetDir() *)
Definition ClusterAssetDir (c : Cluster) : string := AssetDir (config c).

(** (c *Cluster) ControlPlaneCharts(): AKS has no Lokomotive control plane. *)
Definition ControlPlaneCharts (c : Cluster) : list string := [].

(** (c *Cluster) Managed() *)
Definition Managed (c : Cluster) : bool := true.

(** (c *Cluster) Nodes(): [nodes += wp.Count] over the worker pools. *)
Definition Nodes (c : Cluster) : Z :=
  fold_left (fun nodes wp => wrapInt (nodes + Count wp)) (WorkerPools (config c)) 0%Z.

(** (c *Cluster) TerraformExecutionPlan(): a single step without a hook. *)
Definition TerraformExecutionPlan {Executor : Type} (c : Cluster)
  : list (ClusterApply.TerraformExecutionStep Executor) :=
  [ClusterApply.Build_TerraformExecutionStep "Create infrastructure" ["apply"; "-auto-approve"] None].

End Aks.

(* ===================================================================== *)
(** ** pkg/k8sutil/create.go: UpdateNamespace                            *)
(* ===================================================================== *)

Module K8sutil.

(** A Go [map[string]string]: [None] is the nil map. Reading or deleting
    from a nil map is allowed, assigning to one panics. *)
Definition goMap := option (gmap string string).

(** [m[key]] for a read (a nil map reads as empty). *)
Definition mapIndex (m : goMap) (key : string) : option string :=
  match m with None => None | Some m => m !! key end.

(** k8sutil.Namespace *)
Record Namespace := {
  Name : string;
  Labels : goMap;
  Annotations : goMap
}.

(** The metav1.ObjectMeta sent with the Update request. *)
Record ObjectMeta := {
  MetaName : string;
  MetaLabels : goMap;
  MetaAnnotations : goMap
}.

(** Result of [cs.CoreV1().Namespaces().Get(..., name, ...)]. *)
Inductive nsGetResult :=
  | NsGetErr (err : string)
  | NsFound (labels annotations : goMap).

(** Error of [cs.CoreV1().Namespaces().Update(...)]. *)
Inductive updateError :=
  | UpdAlreadyExists
  | UpdOther (err : string).

Record kubeEnv := {
  clientsetErr : option string;
  nsGet : string -> nsGetResult;
  nsUpdate : ObjectMeta -> option updateError
}.

Inductive goResult :=
  | Panic (msg : string)
  | Ret (err : option string).

Definition lokomotiveKey : string := "lokomotive.kinvolk.io".

(** [for key := range m { if strings.Contains(key, "lokomotive.kinvolk.io")
    { delete(m, key) } }] (deleting the entry being visited is allowed). *)
Definition dropLokomotiveKeys (m : goMap) : goMap :=
  match m with
  | None => None
  | Some m => Some (filter (fun kv : string * string => contains kv.1 lokomotiveKey = false) m)
  end.

(** The entries visited by [for key, value := range m] (none for a nil map).
    The keys are distinct, so the visiting order does not change the result
    of the assignments below. *)
Definition rangeEntries (m : goMap) : list (string * string) :=
  match m with None => [] | Some m => map_to_list m end.

Definition nilMapPanic : string := "assignment to entry in nil map".

(** [for key, value := range src { dst[key] = value }] over the visited entries. *)
Fixpoint assignEntries (dst : goMap) (kvs : list (string * string)) : goMap + string :=
  match kvs with
  | [] => inl dst
  | (k, v) :: rest =>
      match dst with
      | None => inr nilMapPanic
      | Some d => assignEntries (Some (<[k := v]> d)) rest
      end
  end.

(** UpdateNamespace(namespace, kubeconfig): the Update requests sent (at
    most one) and the outcome. *)
Definition UpdateNamespace (env : kubeEnv) (namespace : Namespace)
  : list ObjectMeta * goResult :=
  match clientsetErr env with
  | Some e => ([], Ret (Some ("creating clientset: " ++ e)))
  | None =>
      if String.eqb (Name namespace) "" then ([], Ret (Some "namespace name can't be empty"))
      else
        match nsGet env (Name namespace) with
        | NsGetErr e => ([], Ret (Some e))
        | NsFound nsLabels nsAnnotations =>
            let existingLabels := dropLokomotiveKeys nsLabels in
            let existingAnnotations := dropLokomotiveKeys nsAnnotations in
            match assignEntries (Labels namespace) (rangeEntries existingLabels) with
            | inr p => ([], Panic p)
            | inl labels =>
                match assignEntries (Annotations namespace) (rangeEntries existingAnnotations) with
                | inr p => ([], Panic p)
                | inl annotations =>
                    let obj := {| MetaName := Name namespace; MetaLabels := labels;
                                  MetaAnnotations := annotations |} in
                    ([obj],
                     match nsUpdate env obj with
                     | None | Some UpdAlreadyExists => Ret None
                     | Some (UpdOther e) => Ret (Some e)
                     end)
                end
            end
        end
  end.

(** The claimed frame property for one map: keys outside Lokomotive's
    domain keep their existing value, Lokomotive's keys take the supplied
    value. *)
Definition keysMerged (supplied existing result : goMap) : Prop :=
  forall k, mapIndex result k =
    if contains k lokomotiveKey then mapIndex supplied k
    else match mapIndex existing k with
         | Some v => Some v
         | None => mapIndex supplied k
         end.

End K8sutil.


(* ===================================================================== *)
(** ** cli/cmd/utils.go and cli/cmd/cluster.go: kubeconfig path          *)
(* ===================================================================== *)

Module Kubeconfig.

Definition kubeconfigEnvVariable : string := "KUBECONFIG".
Definition defaultKubeconfigPath : string := "~/.kube/config".

(** [strings.Split(s, "/")] *)
Fixpoint splitSlash (s : string) : list string :=
  match s with
  | EmptyString => [""]
  | String c rest =>
      let parts := splitSlash rest in
      if Ascii.eqb c "/"%char then "" :: parts
      else match parts with
           | p :: ps => String c p :: ps
           | [] => [String c ""]
           end
  end.

(** The element loop of [filepath.Clean] (Unix): [out] holds the kept
    elements, last first. Empty and "." elements are dropped; ".." removes
    the previous element, is dropped at the root of a rooted path, and is
    kept when nothing precedes it in a relative one. *)
Fixpoint cleanElems (rooted : bool) (out : list string) (elems : list string) : list string :=
  match elems with
  | [] => out
  | e :: rest =>
      if String.eqb e "" || String.eqb e "." then cleanElems rooted out rest
      else if String.eqb e ".." then
        match out with
        | q :: out' =>
            if String.eqb q ".." then cleanElems rooted (".." :: out) rest
            else cleanElems rooted out' rest
        | [] => if rooted then cleanElems rooted [] rest else cleanElems rooted [".."] rest
        end
      else cleanElems rooted (e :: out) rest
  end.

(** [filepath.Clean(path)] *)
Definition Clean (path : string) : string :=
  let rooted := String.prefix "/" path in
  let body := String.concat "/" (rev (cleanElems rooted [] (splitSlash path))) in
  let r := if rooted then "/" ++ body else body in
  if String.eqb r "" then "." else r.

(** [filepath.Join(elem...)]: the elements from the first non-empty one,
    joined with "/" and cleaned; "" when all are empty. *)
Fixpoint Join (elems : list string) : string :=
  match elems with
  | [] => ""
  | e :: rest => if String.eqb e "" then Join rest else Clean (String.concat "/" (e :: rest))
  end.

(** [homedir.Expand(path)] of github.com/mitchellh/go-homedir, with [home]
    the result of [homedir.Dir()]. *)
Definition Expand (home : string + string) (path : string) : string + string :=
  match path with
  | EmptyString => inl path
  | String c rest =>
      if negb (Ascii.eqb c "~"%char) then inl path
      else
        let expand :=
          match home with
          | inl dir => inl (Join [dir; rest])
          | inr err => inr err
          end in
        match rest with
        | String c2 _ =>
            if negb (Ascii.eqb c2 "/"%char) && negb (Ascii.eqb c2 "\"%char)
            then inr "cannot expand user-specific home dir"
            else expand
        | EmptyString => expand
        end
  end.

(** expandKubeconfigPath(path) *)
Definition expandKubeconfigPath (home : string + string) (path : string) : string :=
  match Expand home path with
  | inl expandedPath => expandedPath
  | inr _ => path
  end.

(** pickString(options...) *)
Fixpoint pickString (options : list string) : string :=
  match options with
  | [] => ""
  | option :: rest => if negb (String.eqb option "") then option else pickString rest
  end.

(** assetsKubeconfig(assetDir) *)
Definition assetsKubeconfig (assetDir : string) : string :=
  Join [assetDir; "cluster-assets"; "auth"; "kubeconfig"].

(** assetsKubeconfigPath(assetDir): the path, or an error (it returns none). *)
Definition assetsKubeconfigPath (assetDir : string) : string + string :=
  if negb (String.eqb assetDir "") then inl (assetsKubeconfig assetDir) else inl "".

(** getKubeconfig(assetDir), with [flag] the value of
    [viper.GetString(kubeconfigFlag)], [env] that of
    [os.Getenv(kubeconfigEnvVariable)] and [home] that of [homedir.Dir()]. *)
Definition getKubeconfig (flag env : string) (home : string + string) (assetDir : string)
  : string + string :=
  match assetsKubeconfigPath assetDir with
  | inr err => inr ("reading kubeconfig path from configuration failed: " ++ err)
  | inl assetKubeconfig =>
      let paths := [flag; assetKubeconfig; env; defaultKubeconfigPath] in
      inl (expandKubeconfigPath home (pickString paths))
  end.

(** [for _, p := range paths { if p != "" { selected = p; break } }] *)
Fixpoint selectPath (selected : string) (paths : list string) : string :=
  match paths with
  | [] => selected
  | p :: rest => if negb (String.eqb p "") then p else selectPath selected rest
  end.

(** kubeconfigPath(assetDir) of cluster.go. *)
Definition kubeconfigPath (flag env : string) (home : string + string) (assetDir : string)
  : string :=
  let assetPath :=
    if negb (String.eqb assetDir "")
    then Join [assetDir; "cluster-assets"; "auth"; "kubeconfig"] else "" in
  let paths := [flag; assetPath; env; defaultKubeconfigPath] in
  let selected := selectPath "" paths in
  match Expand home selected with
  | inl expandedPath => expandedPath
  | inr _ => selected
  end.

(** The resolution as the specification words it: the first non-empty entry
    of the candidate list, the asset candidate being
    [<assetDir>/cluster-assets/auth/kubeconfig] when [assetDir] is set. *)
Fixpoint firstNonEmpty (candidates : list string) : string :=
  match candidates with
  | [] => ""
  | c :: rest => if String.eqb c "" then firstNonEmpty rest else c
  end.

Definition specAssetCandidate (assetDir : string) : string :=
  if String.eqb assetDir "" then "" else assetDir ++ "/cluster-assets/auth/kubeconfig".

Definition specKubeconfig (flag env assetDir : string) : string :=
  firstNonEmpty [flag; specAssetCandidate assetDir; env; defaultKubeconfigPath].

End Kubeconfig.


(* ===================================================================== *)
(** ** cli/cmd/utils.go: askForConfirmation                              *)
(* ===================================================================== *)

Module Confirm.

Local Open Scope Z_scope.

(** Standard input as the runes [fmt] reads from it. *)
Definition runes := list Z.

(** The code points [fmt] counts as spaces (the [space] table of fmt/scan.go). *)
Definition spaceRanges : list (Z * Z) :=
  [(9, 13); (32, 32); (133, 133); (160, 160); (5760, 5760); (8192, 8202);
   (8232, 8233); (8239, 8239); (8287, 8287); (12288, 12288)].

(** fmt's [isSpace(r)] *)
Definition isSpace (r : Z) : bool :=
  existsb (fun '(lo, hi) => (lo <=? r) && (r <=? hi)) spaceRanges.

(** [ss.SkipSpace()] for [Scanln] (a newline is not a space): the input left,
    or the scan error it raises. *)
Fixpoint skipSpace (inp : runes) : runes + string :=
  match inp with
  | [] => inl []
  | r :: rest =>
      if (r =? 13) && bool_decide (head rest = Some 10) then skipSpace rest
      else if r =? 10 then inr "unexpected newline"
      else if isSpace r then skipSpace rest
      else inl inp
  end.

(** [ss.token(..., notSpace)] after the spaces: the word and the input left. *)
Fixpoint takeToken (inp : runes) : runes * runes :=
  match inp with
  | [] => ([], [])
  | r :: rest =>
      if isSpace r then ([], inp)
      else let '(t, rem) := takeToken rest in (r :: t, rem)
  end.

(** What [fmt.Scanln(&input)] stores into its one string operand
    ([convertString] with the verb [v]): [None] when the scan fails before
    the assignment (a newline or the end of input before any word). *)
Definition scanlnString (inp : runes) : option runes :=
  match skipSpace inp with
  | inr _ => None
  | inl [] => None                       (* notEOF: io.EOF *)
  | inl inp' =>
      match skipSpace inp' with
      | inr _ => None
      | inl inp'' => Some (fst (takeToken inp''))
      end
  end.

(** The runes of "yes". *)
Definition yesRunes : runes := [121; 101; 115].

(** askForConfirmation(message) reading [stdin]: the prompt printed and the
    answer ([input] stays "" when Scanln assigns nothing). *)
Definition askForConfirmation (message : string) (stdin : runes) : string * bool :=
  let prompt := (message ++ " [type " ++ doubleQuote ++ "yes" ++ doubleQuote ++
                 " to continue]: ")%string in
  let input := match scanlnString stdin with Some t => t | None => [] end in
  (prompt, bool_decide (input = yesRunes)).

End Confirm.

(* ===================================================================== *)
(** ** cli/cmd/utils.go (earlier version): getKubeconfig via the config   *)
(* ===================================================================== *)

Module KubeconfigLegacy.
Import Kubeconfig.

(** What [getConfiguredPlatform()] answers: diagnostics with errors, no
    cluster block (a nil platform and no diagnostics), or a platform whose
    [Meta().AssetDir] is given. *)
Inductive configuredPlatform :=
| PlatformErr (diags : string)
| PlatformNone
| PlatformMeta (assetDir : string).

(** getAssetDir() *)
Definition getAssetDir (cfg : configuredPlatform) : string + string :=
  match cfg with
  | PlatformErr diags => inr ("cannot load config: " ++ diags)
  | PlatformNone => inl ""
  | PlatformMeta assetDir => inl assetDir
  end.

(** assetsKubeconfigPath() *)
Definition assetsKubeconfigPath (cfg : configuredPlatform) : string + string :=
  match getAssetDir cfg with
  | inr err => inr err
  | inl assetDir => if negb (String.eqb assetDir "") then inl (assetsKubeconfig assetDir) else inl ""
  end.

(** getKubeconfig() *)
Definition getKubeconfig (flag env : string) (home : string + string)
  (cfg : configuredPlatform) : string + string :=
  match assetsKubeconfigPath cfg with
  | inr err => inr ("reading kubeconfig path from configuration failed: " ++ err)
  | inl assetKubeconfig =>
      let paths := [flag; assetKubeconfig; env; defaultKubeconfigPath] in
      inl (expandKubeconfigPath home (pickString paths))
  end.

(** What [os.Stat(kubeconfig)] answers. *)
Inductive statResult :=
| StatOK
| StatNotExist
| StatErr (err : string).

(** doesKubeconfigExist(cmd, args) *)
Definition doesKubeconfigExist (flag env : string) (home : string + string)
  (cfg : configuredPlatform) (stat : string -> statResult) : option string :=
  match getKubeconfig flag env home cfg with
  | inr err => Some err
  | inl kubeconfig =>
      match stat kubeconfig with
      | StatOK => None
      | StatNotExist => Some ("Kubeconfig " ++ quote kubeconfig ++ " not found")
      | StatErr err => Some err
      end
  end.

End KubeconfigLegacy.

(* ===================================================================== *)
(** ** cli/cmd/component-delete.go: runDelete                             *)
(* ===================================================================== *)

Module ComponentDelete.
Import Helm.

Definition newline : string := String (Ascii.ascii_of_nat 10) EmptyString.
Definition tab : string := String (Ascii.ascii_of_nat 9) EmptyString.

(** What runDelete reads before deleting: the answers of [config.Read], of
    [platform.NewCluster] and of [components.Get], and the flags. *)
Record deleteInputs := {
  configDiags : option string;            (** [config.Read] diagnostics, if any *)
  clusterConfigured : bool;               (** [cc.RootConfig.Cluster != nil] *)
  clusterDiags : option string;           (** [platform.NewCluster] errors, if any *)
  clusterAssetDir : string;               (** [c.AssetDir()] *)
  configComponents : list string;         (** the names of [cc.RootConfig.Components] *)
  componentsGet : string -> (string * string) + string;  (** [components.Get] *)
  kubeconfigFlag : string;                (** [viper.GetString(kubeconfigFlag)] *)
  kubeconfigEnv : string;                 (** [os.Getenv("KUBECONFIG")] *)
  homeDir : string + string               (** [homedir.Dir()] *)
}.

(** How runDelete ends. *)
Inductive deleteOutcome :=
| DelFatal (msg : string)      (** a [contextLogger.Fatal]/[Fatalf] *)
| DelPanic (msg : string)      (** a panic of deleteHelmRelease *)
| DelCancelled                 (** "Components deletion cancelled." *)
| DelDone.

(** The loop [for i, componentName := range componentsToDelete]. *)
Fixpoint getComponents (get : string -> (string * string) + string) (names : list string)
  : list (string * string) + string :=
  match names with
  | [] => inl []
  | n :: rest =>
      match get n with
      | inr err => inr err
      | inl c => match getComponents get rest with
                 | inr err => inr err
                 | inl cs => inl (c :: cs)
                 end
      end
  end.

(** runDelete(cmd, args) with [--confirm], [--delete-namespace] and standard
    input: the new cluster state and how the command ends. *)
Definition runDelete (env : helmEnv) (st : clusterState) (confirm deleteNamespace : bool)
  (stdin : Confirm.runes) (inp : deleteInputs) (args : list string)
  : clusterState * deleteOutcome :=
  match configDiags inp with
  | Some d => (st, DelFatal d)
  | None =>
  if negb (clusterConfigured inp) then (st, DelFatal "No cluster configured") else
  match clusterDiags inp with
  | Some _ => (st, DelFatal "Errors found while loading cluster configuration")
  | None =>
      let componentsToDelete := match args with [] => configComponents inp | _ => args end in
      match getComponents (componentsGet inp) componentsToDelete with
      | inr err => (st, DelFatal err)
      | inl componentsObjects =>
          let message := ("The following components will be deleted:" ++ newline ++ tab ++
                          String.concat (newline ++ tab) componentsToDelete ++
                          newline ++ newline ++ "Are you sure you want to proceed?")%string in
          if negb confirm && negb (snd (Confirm.askForConfirmation message stdin))
          then (st, DelCancelled)
          else
            match Kubeconfig.getKubeconfig (kubeconfigFlag inp) (kubeconfigEnv inp)
                    (homeDir inp) (clusterAssetDir inp) with
            | inr err => (st, DelFatal ("Error in finding kubeconfig file: " ++ err))
            | inl _ =>
                let '(st', _, r) := deleteComponents env st deleteNamespace componentsObjects in
                match r with
                | Panic msg => (st', DelPanic msg)
                | Ret (Some err) => (st', DelFatal err)
                | Ret None => (st', DelDone)
                end
            end
      end
  end end.

End ComponentDelete.

(* ===================================================================== *)
(** * Proofs                                                             *)
(* ===================================================================== *)

Module GoStringFacts.

Lemma prefix_refl (s : string) : String.prefix s s = true.
Proof.
  induction s as [|a s IH]; simpl; [reflexivity |].
  destruct (Ascii.ascii_dec a a) as [_ | Hne]; [exact IH | congruence].
Qed.

(** [strings.Contains(s, substr)] implies [strings.Contains(pre + s, substr)]. *)
Lemma contains_prepend (pre s substr : string) :
  contains s substr = true -> contains (pre ++ s) substr = true.
Proof.
  intros H. induction pre as [|a pre IH]; simpl; [exact H |].
  rewrite IH. apply orb_true_r.
Qed.

(** [strings.Contains(prefix + substr, substr)] *)
Lemma contains_app_r (pre substr : string) : contains (pre ++ substr) substr = true.
Proof.
  apply contains_prepend. destruct substr as [|b substr]; simpl; [reflexivity |].
  destruct (Ascii.ascii_dec b b) as [_ | Hne]; [| congruence].
  rewrite prefix_refl. reflexivity.
Qed.

End GoStringFacts.

Module ClusterApplyFacts.
Import ClusterApply.

Section ExecutionPlanFacts.

Context {Executor : Type} (Execute : Executor -> list string -> Executor * option string).

(** A single step either completes with its events, fails in its hook before
    its arguments are handed over, or fails in its Execute call. *)
Lemma runStep_cases ex (step : TerraformExecutionStep Executor) :
  let '(_, evs, r) := runStep Execute ex step in
  (r = None /\ evs = step_events step) \/
  (exists err, PreExecutionHook step <> None /\ r = Some (hookFailed step err) /\
     evs = [EvHook (Description step)]) \/
  (exists err, r = Some (execFailed step err) /\ evs = step_events step).
Proof.
  unfold runStep, runExecute, step_events.
  destruct (PreExecutionHook step) as [hook|].
  - destruct (hook ex) as [ex1 [err|]].
    + right; left. exists err. split; [congruence | auto].
    + destruct (Execute ex1 (Args step)) as [ex2 [err|]].
      * right; right. eauto.
      * left; auto.
  - destruct (Execute ex (Args step)) as [ex2 [err|]].
    + right; right. eauto.
    + left; auto.
Qed.

Lemma runPlan_trace ex (plan : list (TerraformExecutionStep Executor)) :
  plan_trace_ok plan (runPlan Execute ex plan).
Proof.
  revert ex; induction plan as [|step rest IH]; intros ex; simpl.
  - left; auto.
  - pose proof (runStep_cases ex step) as Hs.
    destruct (runStep Execute ex step) as [[ex1 evs1] r1].
    destruct Hs as [[-> ->] | [[err [Hh [-> ->]]] | [err [-> ->]]]].
    + specialize (IH ex1).
      destruct (runPlan Execute ex1 rest) as [[ex2 evs2] r2].
      destruct IH as [[-> ->] | [k [s [err [Hk H]]]]].
      * left; auto.
      * right. exists (S k), s, err. split; [exact Hk |].
        destruct H as [[Hn [-> ->]] | [-> ->]]; [left | right]; simpl;
          rewrite ?app_assoc; auto.
    + right. exists 0, step, err. split; [reflexivity |]. left. auto.
    + right. exists 0, step, err. split; [reflexivity |]. right.
      simpl. rewrite app_nil_r. auto.
Qed.

Lemma executed_app (evs1 evs2 : list event) :
  executed (evs1 ++ evs2) = (executed evs1 ++ executed evs2)%list.
Proof. unfold executed. apply omap_app. Qed.

Lemma executed_step_events (plan : list (TerraformExecutionStep Executor)) :
  executed (concat (map step_events plan)) = map Args plan.
Proof.
  induction plan as [|step rest IH]; simpl; [reflexivity |].
  rewrite executed_app, IH. unfold step_events.
  destruct (PreExecutionHook step); reflexivity.
Qed.

(** The argument lists handed to the executor are always the arguments of a
    prefix of the plan, in the plan's order. *)
Lemma runPlan_executed_prefix ex (plan : list (TerraformExecutionStep Executor)) :
  let '(_, evs, _) := runPlan Execute ex plan in
  executed evs `prefix_of` map Args plan.
Proof.
  pose proof (runPlan_trace ex plan) as H.
  destruct (runPlan Execute ex plan) as [[ex' evs] r].
  destruct H as [[_ ->] | [k [s [err [Hk H]]]]].
  - rewrite executed_step_events. reflexivity.
  - destruct H as [[_ [_ ->]] | [_ ->]].
    + rewrite executed_app, executed_step_events. simpl. rewrite app_nil_r.
      rewrite <- (take_drop k plan) at 2. rewrite map_app.
      apply prefix_app_r. reflexivity.
    + rewrite executed_step_events.
      rewrite <- (take_drop (S k) plan) at 2. rewrite map_app.
      apply prefix_app_r. reflexivity.
Qed.

End ExecutionPlanFacts.


(** C1 (runClusterApply, lines 197-210): the steps of a Terraform execution
    plan run strictly in the order of the plan; a step's pre-execution hook,
    when present, runs before the step's arguments reach the executor; a
    failing hook or Execute call ends the run, so the argument lists handed to
    the executor are those of a prefix of the plan and no later step's
    arguments are ever executed.  For a two-step plan whose first hook fails,
    the run ends with that hook's error and nothing is executed. *)
Theorem terraform_plan_runs_in_order :
  forall (Executor : Type) (Execute : Executor -> list string -> Executor * option string),
  (forall ex (plan : list (TerraformExecutionStep Executor)),
     plan_trace_ok plan (runPlan Execute ex plan) /\
     let '(_, evs, _) := runPlan Execute ex plan in
     executed evs `prefix_of` map Args plan) /\
  (forall ex (s1 s2 : TerraformExecutionStep Executor) hook ex1 err,
     PreExecutionHook s1 = Some hook -> hook ex = (ex1, Some err) ->
     runPlan Execute ex [s1; s2] = (ex1, [EvHook (Description s1)], Some (hookFailed s1 err)) /\
     executed [EvHook (Description s1)] = []).
Proof.
  intros Executor Execute. split.
  - intros ex plan. split; [apply runPlan_trace | apply runPlan_executed_prefix].
  - intros ex s1 s2 hook ex1 err Hh Hr. split; [| reflexivity].
    simpl. unfold runStep. rewrite Hh, Hr. reflexivity.
Qed.

Lemma controlplaneReleases_filter (charts : list string) (upgradeKubelets : bool) :
  controlplaneReleases charts upgradeKubelets =
  filter (fun r => ~ (r = "kubelet" /\ upgradeKubelets = false)) charts.
Proof.
  induction charts as [|r rest IH]; simpl; [reflexivity |].
  rewrite filter_cons, IH.
  destruct (String.eqb_spec r "kubelet") as [->|Hne], upgradeKubelets; simpl;
    repeat case_decide; naive_solver.
Qed.

Lemma upgradeReleases_prefix (up : string -> option string) (releases : list string) :
  fst (upgradeReleases up releases) `prefix_of` releases /\
  ((forall c, c ∈ releases -> up c = None) -> upgradeReleases up releases = (releases, None)).
Proof.
  induction releases as [|c rest [IH1 IH2]]; simpl.
  - split; [reflexivity | auto].
  - destruct (up c) as [msg|] eqn:Hc.
    + split.
      * simpl. apply prefix_cons, prefix_nil.
      * intros Hall. rewrite Hall in Hc by (left; reflexivity). discriminate.
    + destruct (upgradeReleases up rest) as [called r] eqn:Hr. simpl in *. split.
      * apply prefix_cons. exact IH1.
      * intros Hall.
        assert (Hrest : (called, r) = (rest, None)).
        { apply IH2. intros c' Hc'. apply Hall. right. exact Hc'. }
        injection Hrest as -> ->. reflexivity.
Qed.

(** C6 (runClusterApply, lines 219-243): control-plane upgrades happen only
    when the cluster existed before the run and the platform is not managed.
    Then [upgradeComponent] is called on the charts of [ControlPlaneCharts] in
    their order, leaving out a [kubelet] entry unless [--upgrade-kubelets] is
    set: always on a prefix of that list (a failing upgrade ends the run), and
    on the whole list when every upgrade succeeds. *)
Theorem controlplane_upgrades_when_existing_unmanaged :
  forall (exists' managed upgradeKubelets : bool) (charts : list string)
    (upgradeComponent : string -> option string),
  let selected :=
    if exists' && negb managed
    then filter (fun r => ~ (r = "kubelet" /\ upgradeKubelets = false)) charts
    else [] in
  fst (controlplaneUpgrade exists' managed upgradeKubelets charts upgradeComponent)
    `prefix_of` selected /\
  ((forall c, upgradeComponent c = None) ->
   controlplaneUpgrade exists' managed upgradeKubelets charts upgradeComponent = (selected, None)).
Proof.
  intros exists' managed upgradeKubelets charts up selected.
  unfold selected, controlplaneUpgrade.
  destruct (exists' && negb managed).
  - rewrite <- controlplaneReleases_filter.
    destruct (upgradeReleases_prefix up (controlplaneReleases charts upgradeKubelets)) as [H1 H2].
    split; [exact H1 | intros Hall; apply H2; auto].
  - split; [reflexivity | auto].
Qed.

End ClusterApplyFacts.

Module ReadinessFacts.
Import Readiness.
Local Open Scope Z_scope.

Lemma deploymentCondition_found name replicas availableReplicas :
  0 <= replicas ->
  snd (deploymentCondition name (GetFound replicas availableReplicas)) =
  (spec_ready (GetFound replicas availableReplicas), None).
Proof.
  intros Hnn. unfold deploymentCondition, spec_ready.
  destruct (Z.eqb_spec replicas 0) as [->|Hne].
  - simpl. rewrite andb_false_r. reflexivity.
  - assert (Hlt : (0 <? replicas) = true) by (apply Z.ltb_lt; lia).
    rewrite Hlt, andb_true_r. destruct (availableReplicas =? replicas); reflexivity.
Qed.

Lemma pollImmediate_not_ready name (obs : list getResult) :
  Forall not_ready obs ->
  snd (pollImmediate (deploymentCondition name) obs) = ErrWaitTimeout /\
  "Admission Webhook applied successfully" ∉ fst (pollImmediate (deploymentCondition name) obs).
Proof.
  induction obs as [|o rest IH]; intros Hall; simpl.
  - split; [reflexivity | apply not_elem_of_nil].
  - apply Forall_cons in Hall as [Ho Hrest]. specialize (IH Hrest).
    destruct Ho as [-> | [replicas [available [-> [Hnn Hnr]]]]].
    + simpl. destruct (pollImmediate (deploymentCondition name) rest) as [out' r].
      simpl in *. destruct IH as [-> Hnot]. split; [reflexivity |].
      rewrite elem_of_cons. intros [Heq | Hin]; [discriminate | exact (Hnot Hin)].
    + pose proof (deploymentCondition_found name replicas available Hnn) as Hc.
      rewrite Hnr in Hc.
      destruct (deploymentCondition name (GetFound replicas available)) as [out [done err]] eqn:Hd.
      simpl in Hc. injection Hc as -> ->.
      destruct (pollImmediate (deploymentCondition name) rest) as [out' r].
      simpl in *. destruct IH as [-> Hnot]. split; [reflexivity |].
      rewrite elem_of_app. intros [Hin | Hin]; [| exact (Hnot Hin)].
      revert Hd. unfold deploymentCondition.
      destruct (replicas =? 0); [| destruct (available =? replicas)];
        intros Hd; inversion Hd; subst;
        first [apply list_elem_of_singleton in Hin; cbn in Hin; discriminate | inversion Hin].
Qed.

(** C2, as stated, fails: when the deadline passes without the predicate
    holding, [waitForDeployment] gives its caller exactly what it gives on
    success (it has no result); the timeout is only printed. *)
Lemma waitForDeployment_timeout_not_returned :
  snd (pollImmediate (deploymentCondition "webhook") [GetFound 0 0; GetFound 0 0]) = ErrWaitTimeout /\
  snd (waitForDeployment "webhook" [GetFound 0 0; GetFound 0 0]) =
    snd (waitForDeployment "webhook" [GetFound 1 1]) /\
  last (fst (waitForDeployment "webhook" [GetFound 0 0; GetFound 0 0])) =
    Some "error while waiting for the deployment: timed out waiting for the condition".
Proof. vm_compute. auto. Qed.

(** C2 (amended; waitForDeployment): for a Deployment whose [Status.Replicas]
    is non-negative (as the API server validates it), the poll condition
    reports ready exactly when [AvailableReplicas = Replicas] and
    [Replicas > 0], and never with [Replicas = 0].  When no poll before the
    deadline sees a ready Deployment, polling ends with [ErrWaitTimeout], no
    ready message is printed, and [waitForDeployment] prints
    "error while waiting for the deployment: timed out waiting for the
    condition" and returns normally, with no error for its caller. *)
Theorem deployment_readiness_and_timeout :
  (forall name replicas availableReplicas, 0 <= replicas ->
     snd (deploymentCondition name (GetFound replicas availableReplicas)) =
     ((Z.eqb availableReplicas replicas && Z.ltb 0 replicas)%bool, None)) /\
  (forall name availableReplicas,
     fst (snd (deploymentCondition name (GetFound 0 availableReplicas))) = false) /\
  (forall name (obs : list getResult), Forall not_ready obs ->
     snd (pollImmediate (deploymentCondition name) obs) = ErrWaitTimeout /\
     waitForDeployment name obs =
       ((fst (pollImmediate (deploymentCondition name) obs) ++
         ["error while waiting for the deployment: timed out waiting for the condition"])%list, tt) /\
     "Admission Webhook applied successfully" ∉ fst (waitForDeployment name obs)).
Proof.
  split; [| split].
  - intros name replicas available Hnn.
    exact (deploymentCondition_found name replicas available Hnn).
  - intros name available. reflexivity.
  - intros name obs Hall.
    destruct (pollImmediate_not_ready name obs Hall) as [Hr Hnot].
    unfold waitForDeployment.
    destruct (pollImmediate (deploymentCondition name) obs) as [out r].
    simpl in *. subst r. split; [reflexivity | split; [reflexivity |]].
    simpl. rewrite elem_of_app. intros [Hin | Hin]; [exact (Hnot Hin) |].
    apply list_elem_of_singleton in Hin. discriminate.
Qed.

End ReadinessFacts.

Module HelmFacts.
Import Helm.

Lemma deleteNS_healthy env st ns :
  readKubeconfigErr env = None -> clientsetErr env = None -> nsDeleteFailure env = None ->
  ns ∉ terminating st ->
  snd (deleteNS env st ns) = None /\
  releases (fst (deleteNS env st ns)) = releases st /\
  namespaces (fst (deleteNS env st ns)) = namespaces st /\
  terminating (fst (deleteNS env st ns)) =
    terminating st ∪ (if bool_decide (ns ∈ namespaces st) then {[ns]} else ∅).
Proof.
  intros Hr Hc Hn Ht. unfold deleteNS, namespaceDelete. rewrite Hr, Hc, Hn.
  destruct (decide (ns ∈ namespaces st)) as [Hin | Hin].
  - rewrite !bool_decide_true by exact Hin. rewrite bool_decide_false by exact Ht.
    simpl. repeat split.
  - rewrite !bool_decide_false by exact Hin. simpl. repeat split. set_solver.
Qed.

Lemma deleteNS_releases env st ns :
  releases (fst (deleteNS env st ns)) = releases st.
Proof.
  unfold deleteNS, namespaceDelete.
  destruct (readKubeconfigErr env), (clientsetErr env), (nsDeleteFailure env);
    simpl; try reflexivity; repeat case_bool_decide; reflexivity.
Qed.

(** With no history for [(ns, name)], deleteHelmRelease skips uninstall and
    succeeds, unless namespace deletion is asked and the namespace is
    already Terminating; a NotFound namespace counts as success. *)
Lemma deleteHelmRelease_absent env st name ns deleteNSBool :
  name <> "" -> ns <> "" -> deleteInfraHealthy env deleteNSBool ->
  (deleteNSBool = false \/ ns ∉ terminating st) ->
  (ns, name) ∉ releases st ->
  exists st', deleteHelmRelease env st name ns deleteNSBool = (st', false, Ret None) /\
    releases st' = releases st /\ namespaces st' = namespaces st /\
    terminating st' = terminating st ∪
      (if deleteNSBool && bool_decide (ns ∈ namespaces st) then {[ns]} else ∅).
Proof.
  intros Hname Hns [Hcfg Hnsok] Ht Habs. unfold deleteHelmRelease.
  rewrite (proj2 (String.eqb_neq _ _) Hname), (proj2 (String.eqb_neq _ _) Hns), Hcfg.
  assert (Hh : exists e, historyRun env st ns name = Some e).
  { unfold historyRun. destruct (historyFailure env); [eauto |].
    rewrite bool_decide_false by exact Habs. eauto. }
  destruct Hh as [e ->].
  destruct deleteNSBool.
  - destruct (Hnsok eq_refl) as [Hr [Hc Hn]].
    destruct Ht as [Ht | Ht]; [discriminate Ht |].
    pose proof (deleteNS_healthy env st ns Hr Hc Hn Ht) as (Hd & Hrel & Hnss & Hterm).
    destruct (deleteNS env st ns) as [st2 r2]. simpl in *. subst r2. eauto.
  - exists st. split; [reflexivity |]. split; [reflexivity | split; [reflexivity |]]. simpl.
    set_solver.
Qed.

(** With the Helm client, kubeconfig, clientset, history and uninstall
    available, and the namespace not already Terminating when its deletion
    is asked, deleteHelmRelease of a named component succeeds: it removes
    exactly its release (uninstalling it when it has history) and, when
    namespace deletion is asked, marks its namespace Terminating. *)
Lemma deleteHelmRelease_healthy env st name ns deleteNSBool :
  name <> "" -> ns <> "" -> deleteInfraHealthy env deleteNSBool ->
  historyFailure env = None -> uninstallFailure env = None -> uninstallDeleteErr env = None ->
  (deleteNSBool = false \/ ns ∉ terminating st) ->
  exists st', deleteHelmRelease env st name ns deleteNSBool =
                (st', bool_decide ((ns, name) ∈ releases st), Ret None) /\
    releases st' = releases st ∖ {[(ns, name)]} /\ namespaces st' = namespaces st /\
    terminating st' = terminating st ∪
      (if deleteNSBool && bool_decide (ns ∈ namespaces st) then {[ns]} else ∅).
Proof.
  intros Hname Hns Hinfra Hhist Hun Hdel Ht.
  destruct (decide ((ns, name) ∈ releases st)) as [Hin | Habs].
  - pose proof Hinfra as [Hcfg Hnsok]. unfold deleteHelmRelease.
    rewrite (proj2 (String.eqb_neq _ _) Hname), (proj2 (String.eqb_neq _ _) Hns), Hcfg.
    unfold historyRun. rewrite Hhist, !bool_decide_true by exact Hin.
    unfold uninstallRun. rewrite Hun, Hdel, bool_decide_true by exact Hin. simpl.
    destruct deleteNSBool.
    + destruct (Hnsok eq_refl) as [Hr [Hc Hn]].
      destruct Ht as [Ht | Ht]; [discriminate Ht |].
      set (st0 := {| releases := releases st ∖ {[(ns, name)]}; namespaces := namespaces st;
                     terminating := terminating st |}).
      pose proof (deleteNS_healthy env st0 ns Hr Hc Hn Ht) as (Hd & Hrel & Hnss & Hterm).
      destruct (deleteNS env st0 ns) as [st2 r2]. simpl in *. subst r2. eauto.
    + eexists. split; [reflexivity |]. simpl. split; [reflexivity | split; [reflexivity |]].
      set_solver.
  - destruct (deleteHelmRelease_absent env st name ns deleteNSBool Hname Hns Hinfra Ht Habs)
      as (st' & Heq & Hrel & Hnss & Hterm).
    rewrite bool_decide_false by exact Habs. exists st'.
    split; [exact Heq |]. split; [rewrite Hrel; set_solver | split; assumption].
Qed.




(** C4, as stated, fails: component delete treats a history error that is
    not "release not found" (here the API is unreachable) as "not
    installed": the existing release is not uninstalled and success is
    returned. *)
Lemma delete_swallows_history_error :
  deleteHelmRelease
    (Build_helmEnv None (Some "connection refused") None None None None None None None None None)
    {| releases := {[("monitoring", "prometheus-operator")]}; namespaces := {["monitoring"]}; terminating := ∅ |}
    "prometheus-operator" "monitoring" false =
  ({| releases := {[("monitoring", "prometheus-operator")]}; namespaces := {["monitoring"]}; terminating := ∅ |},
   false, Ret None).
Proof. reflexivity. Qed.

(** C4 (amended; upgradeComponent with util.ReleaseExists, deleteHelmRelease):
    in the control-plane upgrade, only the absence of history means "not
    installed" (the component is then installed before the upgrade), and any
    other history error ends the run with "Failed checking if controlplane
    component is installed"; in component delete, every history error,
    whatever its class, is taken as "not installed": uninstall is skipped and,
    without namespace deletion, success is returned. *)
Theorem release_existence_probes :
  forall (env : helmEnv) (st : clusterState),
  (forall component, helmActionConfigErr env = None -> chartErr env = None ->
     valuesErr env = None ->
     (forall msg, historyFailure env = Some msg ->
        upgradeComponent env st component =
          ([], Some ("Failed checking if controlplane component is installed: " ++ msg))) /\
     (historyFailure env = None -> ("kube-system", component) ∉ releases st ->
        head (fst (upgradeComponent env st component)) = Some CPInstall)) /\
  (forall name ns msg, name <> "" -> ns <> "" -> helmActionConfigErr env = None ->
     historyFailure env = Some msg ->
     deleteHelmRelease env st name ns false = (st, false, Ret None)).
Proof.
  intros env st. split.
  - intros component Hcfg Hchart Hvalues. unfold upgradeComponent, ReleaseExists, historyRun.
    rewrite Hcfg, Hchart, Hvalues. split.
    + intros msg ->. reflexivity.
    + intros -> Habs. rewrite bool_decide_false by exact Habs. simpl.
      destruct (installFailure env), (upgradeFailure env); reflexivity.
  - intros name ns msg Hname Hns Hcfg Hh. unfold deleteHelmRelease, historyRun.
    rewrite (proj2 (String.eqb_neq _ _) Hname), (proj2 (String.eqb_neq _ _) Hns), Hcfg, Hh.
    reflexivity.
Qed.

Lemma release_existence_probes_witness :
  let env := Build_helmEnv None (Some "connection refused") None None None None None None None None None in
  let st := {| releases := {[("monitoring", "prometheus-operator")]}; namespaces := ∅; terminating := ∅ |} in
  upgradeComponent env st "calico" =
    ([], Some ("Failed checking if controlplane component is installed: connection refused")) /\
  deleteHelmRelease env st "prometheus-operator" "monitoring" false = (st, false, Ret None).
Proof.
  intros env st. split.
  - apply (proj1 (proj1 (release_existence_probes env st) "calico" eq_refl eq_refl eq_refl)).
    reflexivity.
  - apply (proj2 (release_existence_probes env st) "prometheus-operator" "monitoring" "connection refused");
      [discriminate | discriminate | reflexivity | reflexivity].
Defined.

End HelmFacts.

Module AksFacts.
Import Aks.

(** The duplicated names after a prefix [pre] of pools already seen. *)
Lemma duplicated_after_cons (pre : list workerPool) (w : workerPool) (rest : list workerPool) :
  concat (imap (fun i w' =>
    if bool_decide (Name w' ∈ map Name (pre ++ take i (w :: rest))) then [Name w'] else []) (w :: rest)) =
  ((if bool_decide (Name w ∈ map Name pre) then [Name w] else []) ++
   concat (imap (fun i w' =>
     if bool_decide (Name w' ∈ map Name ((pre ++ [w]) ++ take i rest)) then [Name w'] else []) rest))%list.
Proof.
  rewrite imap_cons. simpl. rewrite app_nil_r. f_equal. f_equal.
  apply imap_ext. intros i x _. simpl. rewrite <- app_assoc. reflexivity.
Qed.

Lemma namesUniqueLoop_spec (pools pre : list workerPool) (dup : gmap string bool) :
  (forall n, default false (dup !! n) = bool_decide (n ∈ map Name pre)) ->
  namesUniqueLoop dup pools =
  map duplicatedPool (concat (imap (fun i w =>
    if bool_decide (Name w ∈ map Name (pre ++ take i pools)) then [Name w] else []) pools)).
Proof.
  revert pre dup. induction pools as [|w rest IH]; intros pre dup Hdup; [reflexivity |].
  rewrite duplicated_after_cons. simpl. rewrite Hdup.
  case_bool_decide as Hin; simpl.
  - f_equal. apply IH. intros n. rewrite Hdup. apply bool_decide_ext.
    rewrite map_app, elem_of_app. simpl. rewrite list_elem_of_singleton.
    split; [auto | intros [H | ->]; auto].
  - apply IH. intros n. rewrite lookup_insert. rewrite map_app. simpl.
    case_decide as Heq.
    + subst n. simpl. symmetry. apply bool_decide_eq_true.
      apply elem_of_app. right. left.
    + rewrite Hdup. apply bool_decide_ext. rewrite elem_of_app, list_elem_of_singleton.
      split; [auto | intros [H | ->]; [exact H | congruence]].
Qed.

Lemma checkWorkerPoolNamesUnique_spec (c : Config) :
  checkWorkerPoolNamesUnique c = map duplicatedPool (duplicatedNames (WorkerPools c)).
Proof.
  unfold checkWorkerPoolNamesUnique, duplicatedNames.
  rewrite (namesUniqueLoop_spec (WorkerPools c) [] ∅); [reflexivity |].
  intros n. rewrite lookup_empty. simpl.
  first [reflexivity | rewrite bool_decide_false; [reflexivity | apply not_elem_of_nil]].
Qed.

(** How many times a name is flagged, after a prefix [pre] of pools. *)
Lemma duplicated_count (n : string) (pools pre : list workerPool) :
  length (filter (fun m => m = n) (concat (imap (fun i w =>
    if bool_decide (Name w ∈ map Name (pre ++ take i pools)) then [Name w] else []) pools))) =
  if bool_decide (n ∈ map Name pre)
  then length (filter (fun m => m = n) (map Name pools))
  else Nat.pred (length (filter (fun m => m = n) (map Name pools))).
Proof.
  revert pre. induction pools as [|w rest IH]; intros pre.
  - simpl. case_bool_decide; reflexivity.
  - rewrite duplicated_after_cons, filter_app, length_app, IH. simpl.
    rewrite filter_cons.
    assert (Hiff : n ∈ map Name (pre ++ [w]) <-> n ∈ map Name pre \/ Name w = n).
    { rewrite map_app, elem_of_app. simpl. rewrite list_elem_of_singleton.
      split; intros [H | H]; auto. }
    destruct (decide (Name w = n)) as [Heq | Hne].
    + subst n. rewrite (bool_decide_eq_true_2 (Name w ∈ map Name (pre ++ [w]))) by (apply Hiff; auto).
      case_bool_decide as Hin; simpl; [rewrite filter_cons_True by reflexivity; simpl; lia | lia].
    + rewrite ?decide_False by exact Hne.
      assert (Hb : bool_decide (n ∈ map Name (pre ++ [w])) = bool_decide (n ∈ map Name pre)).
      { apply bool_decide_ext. rewrite Hiff. split; [intros [H | H]; [exact H | congruence] | auto]. }
      rewrite Hb.
      assert (H0 : length (filter (fun m => m = n)
                     (if bool_decide (Name w ∈ map Name pre) then [Name w] else [])) = 0).
      { destruct (bool_decide (Name w ∈ map Name pre)); simpl; [rewrite filter_cons_False by exact Hne |]; reflexivity. }
      rewrite H0. reflexivity.
Qed.

(** C7 (checkWorkerPoolNamesUnique, validate): the uniqueness check flags
    exactly the pools whose name repeats an earlier pool's name, one
    "Worker pool '<name>' is duplicated" diagnostic per repeated occurrence
    (a name occurring k times is flagged k-1 times; its first occurrence
    never), and validate returns these together with the diagnostics of all
    the other checks. *)
Theorem duplicate_pool_names_flagged :
  forall (getenv : string -> string) (rangeOrder : gmap string string -> list (string * string))
    (c : Config),
  checkWorkerPoolNamesUnique c = map duplicatedPool (duplicatedNames (WorkerPools c)) /\
  (forall n, length (filter (fun m => m = n) (duplicatedNames (WorkerPools c))) =
             Nat.pred (length (filter (fun m => m = n) (map Name (WorkerPools c))))) /\
  validate getenv rangeOrder c =
    (checkNotEmptyWorkers c ++ map duplicatedPool (duplicatedNames (WorkerPools c)) ++
     checkWorkerPools c ++ checkCredentials getenv c ++ checkRequiredFields getenv rangeOrder c)%list.
Proof.
  intros getenv rangeOrder c. split; [| split].
  - apply checkWorkerPoolNamesUnique_spec.
  - intros n. pose proof (duplicated_count n (WorkerPools c) []) as H.
    rewrite bool_decide_false in H by apply not_elem_of_nil. exact H.
  - unfold validate. rewrite checkWorkerPoolNamesUnique_spec. reflexivity.
Qed.

(** C8 (checkWorkerPools): a configuration with a worker pool whose count
    is 0 or negative fails validation with a diagnostic for that pool whose
    message contains "count must be bigger than 0". *)
Theorem nonpositive_count_rejected :
  forall (getenv : string -> string) (rangeOrder : gmap string string -> list (string * string))
    (c : Config) (w : workerPool),
  w ∈ WorkerPools c -> (Count w <= 0)%Z ->
  exists d, d ∈ validate getenv rangeOrder c /\ Severity d = DiagError /\
    Summary d = "pool " ++ quote (Name w) ++ ": count must be bigger than 0" /\
    contains (Summary d) "count must be bigger than 0" = true.
Proof.
  intros getenv rangeOrder c w Hw Hcount.
  exists {| Severity := DiagError;
            Summary := "pool " ++ quote (Name w) ++ ": count must be bigger than 0";
            Detail := "" |}.
  split; [| split; [reflexivity | split; [reflexivity |]]].
  - unfold validate. rewrite !elem_of_app. right; right; left.
    unfold checkWorkerPools. rewrite list_elem_of_In, in_concat.
    eexists. split.
    + apply in_map_iff. exists w. split; [reflexivity |]. apply list_elem_of_In. exact Hw.
    + apply in_or_app. right. rewrite (proj2 (Z.leb_le _ _) Hcount). left. reflexivity.
  - simpl Summary.
    change (": count must be bigger than 0") with (": " ++ "count must be bigger than 0").
    apply GoStringFacts.contains_prepend, GoStringFacts.contains_prepend.
    apply GoStringFacts.contains_app_r.
Qed.

Lemma nonpositive_count_rejected_witness :
  let pool := {| Name := "workers"; Count := 0%Z; VMSize := "Standard_D2_v2";
                 Labels := ∅; Taints := [] |} in
  let conf := {| AssetDir := "assets"; ClusterName := "demo"; Tags := None; TenantID := "t";
                 SubscriptionID := "s"; ClientID := "id"; ClientSecret := "secret";
                 Location := "West Europe"; ApplicationName := ""; ResourceGroupName := "rg";
                 ManageResourceGroup := true; WorkerPools := [pool];
                 KubernetesVersion := "1.16.10" |} in
  pool ∈ WorkerPools conf /\ (Count pool <= 0)%Z /\
  exists d, d ∈ validate (fun _ => "") map_to_list conf /\ Severity d = DiagError /\
    Summary d = "pool " ++ quote (Name pool) ++ ": count must be bigger than 0" /\
    contains (Summary d) "count must be bigger than 0" = true.
Proof.
  intros pool conf.
  assert (Hin : pool ∈ WorkerPools conf) by (simpl; left).
  assert (Hc : (Count pool <= 0)%Z) by (simpl; lia).
  split; [exact Hin | split; [exact Hc |]].
  exact (nonpositive_count_rejected (fun _ => "") map_to_list conf pool Hin Hc).
Defined.

Lemma AppendVersionTag_idem (version : string) (tags : option (gmap string string)) :
  AppendVersionTag version (AppendVersionTag version tags) = AppendVersionTag version tags.
Proof.
  unfold AppendVersionTag. simpl.
  destruct (String.eqb version "") eqn:E; [reflexivity |].
  f_equal. apply insert_insert_eq.
Qed.

Lemma setTags_setTags (c : Config) (t t' : option (gmap string string)) :
  setTags (setTags c t) t' = setTags c t'.
Proof. reflexivity. Qed.

Lemma Tags_setTags (c : Config) (t : option (gmap string string)) : Tags (setTags c t) = t.
Proof. reflexivity. Qed.

(** C5 (renderRootModule, NewCluster, TerraformRootModule): rendering is a
    function of the configuration, and although it writes the lokoctl-version
    tag into the configuration's Tags, constructing a second Cluster from the
    configuration so updated leaves it unchanged and gives byte-identical
    output of TerraformRootModule (and the same error, if any). *)
Theorem root_module_rendering_deterministic :
  forall (version : string) (templateParseErr : option string)
    (executeTemplate : Config -> string + string) (conf : Config),
  let '(conf1, r1) := NewCluster version templateParseErr executeTemplate conf in
  let '(conf2, r2) := NewCluster version templateParseErr executeTemplate conf1 in
  conf2 = conf1 /\ r2 = r1 /\
  (forall cl1 cl2, r1 = inl cl1 -> r2 = inl cl2 ->
     TerraformRootModule cl2 = TerraformRootModule cl1).
Proof.
  intros version templateParseErr executeTemplate conf.
  assert (Hidem : forall c, NewCluster version templateParseErr executeTemplate
                     (fst (NewCluster version templateParseErr executeTemplate c))
                   = NewCluster version templateParseErr executeTemplate c).
  { intros c. unfold NewCluster, renderRootModule.
    destruct templateParseErr as [e |]; [reflexivity |].
    set (c1 := setTags c _).
    assert (Hc1 : setTags c1 (AppendVersionTag version (Tags c1)) = c1).
    { subst c1. rewrite Tags_setTags, setTags_setTags, AppendVersionTag_idem. reflexivity. }
    destruct (executeTemplate c1) as [rendered | e] eqn:Ex; cbn [fst]; rewrite Hc1, Ex; reflexivity. }
  specialize (Hidem conf).
  destruct (NewCluster version templateParseErr executeTemplate conf) as [conf1 r1].
  simpl in Hidem. rewrite Hidem.
  split; [reflexivity | split; [reflexivity |]].
  intros cl1 cl2 H1 H2. rewrite H1 in H2. injection H2 as <-. reflexivity.
Qed.

End AksFacts.

Module K8sutilFacts.
Import K8sutil.

Definition insertAll (d : gmap string string) (kvs : list (string * string)) :=
  foldl (fun acc kv => <[kv.1 := kv.2]> acc) d kvs.

Lemma assignEntries_Some (d : gmap string string) (kvs : list (string * string)) :
  assignEntries (Some d) kvs = inl (Some (insertAll d kvs)).
Proof.
  revert d. induction kvs as [|[k v] kvs IH]; intros d; simpl; [reflexivity |].
  apply IH.
Qed.

Lemma assignEntries_None (kvs : list (string * string)) :
  kvs <> [] -> assignEntries None kvs = inr nilMapPanic.
Proof. destruct kvs as [|[k v] kvs]; [congruence | reflexivity]. Qed.

Lemma insertAll_lookup (d : gmap string string) (kvs : list (string * string)) (k : string) :
  NoDup kvs.*1 ->
  insertAll d kvs !! k =
    match (list_to_map kvs : gmap string string) !! k with
    | Some v => Some v
    | None => d !! k
    end.
Proof.
  revert d. induction kvs as [|[k' v'] kvs IH]; intros d Hnd; simpl; [reflexivity |].
  inversion Hnd as [|? ? Hnotin Hnd']; subst.
  unfold insertAll in *. simpl. rewrite IH by exact Hnd'.
  destruct (decide (k = k')) as [-> | Hne].
  - rewrite not_elem_of_list_to_map_1 by exact Hnotin.
    rewrite !lookup_insert_eq. reflexivity.
  - rewrite !lookup_insert_ne by congruence. reflexivity.
Qed.

(** Ranging over [src] and assigning into a non-nil [dst]. *)
Lemma assign_range_lookup (d : gmap string string) (src : goMap) :
  exists d', assignEntries (Some d) (rangeEntries src) = inl (Some d') /\
    forall k, d' !! k = match mapIndex src k with Some v => Some v | None => d !! k end.
Proof.
  eexists. split; [apply assignEntries_Some |].
  intros k. destruct src as [s |]; simpl; [| reflexivity].
  rewrite insertAll_lookup by apply NoDup_fst_map_to_list.
  rewrite list_to_map_to_list. reflexivity.
Qed.

Lemma dropLokomotiveKeys_lookup (m : goMap) (k : string) :
  mapIndex (dropLokomotiveKeys m) k =
    if contains k lokomotiveKey then None else mapIndex m k.
Proof.
  destruct m as [m |]; simpl; [| destruct (contains k lokomotiveKey); reflexivity].
  rewrite map_lookup_filter.
  destruct (m !! k) as [v |]; simpl; [| destruct (contains k lokomotiveKey); reflexivity].
  destruct (contains k lokomotiveKey) eqn:E.
  - rewrite option_guard_False; [reflexivity | simpl; congruence].
  - rewrite option_guard_True; reflexivity.
Qed.

Lemma rangeEntries_nonempty (m : goMap) (k v : string) :
  mapIndex m k = Some v -> rangeEntries m <> [].
Proof.
  destruct m as [m |]; simpl; [| discriminate].
  intros Hk Hnil. apply map_to_list_empty_iff in Hnil. subst m.
  rewrite lookup_empty in Hk. discriminate.
Qed.

Lemma user_key_survives_drop (m : goMap) (k v : string) :
  mapIndex m k = Some v -> contains k lokomotiveKey = false ->
  rangeEntries (dropLokomotiveKeys m) <> [].
Proof.
  intros Hk Hc. apply (rangeEntries_nonempty _ k v).
  rewrite dropLokomotiveKeys_lookup, Hc. exact Hk.
Qed.

Lemma merged_lookup (supplied : gmap string string) (existing : goMap) (d' : gmap string string) :
  (forall k, d' !! k = match mapIndex (dropLokomotiveKeys existing) k with
                       | Some v => Some v | None => supplied !! k end) ->
  keysMerged (Some supplied) existing (Some d').
Proof.
  intros H k. simpl. rewrite H, dropLokomotiveKeys_lookup.
  destruct (contains k lokomotiveKey); reflexivity.
Qed.

(** C9 (UpdateNamespace): once the namespace is read, when the supplied
    Labels and Annotations maps are non-nil, the object sent with the update
    keeps every existing label and annotation whose key does not contain
    "lokomotive.kinvolk.io" and takes the supplied value for every key that
    does. When the supplied Labels map is nil and the namespace has a label
    outside Lokomotive's keys (or the Labels are non-nil, the Annotations nil
    and it has such an annotation), the merge assigns into a nil map: Go
    panics and no update is sent, so nothing is preserved. *)
Theorem update_namespace_merges_or_panics :
  forall (env : kubeEnv) (namespace : Namespace) (nsLabels nsAnnotations : goMap),
  clientsetErr env = None -> Name namespace <> "" ->
  nsGet env (Name namespace) = NsFound nsLabels nsAnnotations ->
  (Labels namespace <> None -> Annotations namespace <> None ->
     exists obj r, UpdateNamespace env namespace = ([obj], r) /\
       MetaName obj = Name namespace /\
       keysMerged (Labels namespace) nsLabels (MetaLabels obj) /\
       keysMerged (Annotations namespace) nsAnnotations (MetaAnnotations obj)) /\
  (Labels namespace = None ->
     (exists k v, mapIndex nsLabels k = Some v /\ contains k lokomotiveKey = false) ->
     UpdateNamespace env namespace = ([], Panic nilMapPanic)) /\
  (Labels namespace <> None -> Annotations namespace = None ->
     (exists k v, mapIndex nsAnnotations k = Some v /\ contains k lokomotiveKey = false) ->
     UpdateNamespace env namespace = ([], Panic nilMapPanic)).
Proof.
  intros env namespace nsLabels nsAnnotations Hcs Hname Hget.
  assert (Hpre : UpdateNamespace env namespace =
    match assignEntries (Labels namespace) (rangeEntries (dropLokomotiveKeys nsLabels)) with
    | inr p => ([], Panic p)
    | inl labels =>
        match assignEntries (Annotations namespace) (rangeEntries (dropLokomotiveKeys nsAnnotations)) with
        | inr p => ([], Panic p)
        | inl annotations =>
            let obj := {| MetaName := Name namespace; MetaLabels := labels;
                          MetaAnnotations := annotations |} in
            ([obj],
             match nsUpdate env obj with
             | None | Some UpdAlreadyExists => Ret None
             | Some (UpdOther e) => Ret (Some e)
             end)
        end
    end).
  { unfold UpdateNamespace. rewrite Hcs, Hget.
    destruct (String.eqb_spec (Name namespace) "") as [E | _]; [congruence | reflexivity]. }
  rewrite Hpre. clear Hpre.
  split; [| split].
  - intros HL HA.
    destruct (Labels namespace) as [L |] eqn:EL; [| congruence].
    destruct (Annotations namespace) as [A |] eqn:EA; [| congruence].
    destruct (assign_range_lookup L (dropLokomotiveKeys nsLabels)) as [L' [HL' HlookL]].
    destruct (assign_range_lookup A (dropLokomotiveKeys nsAnnotations)) as [A' [HA' HlookA]].
    rewrite HL', HA'.
    eexists _, _. split; [reflexivity |]. simpl.
    split; [reflexivity |].
    split; apply merged_lookup; assumption.
  - intros HL [k [v [Hk Hc]]]. rewrite HL.
    rewrite assignEntries_None by exact (user_key_survives_drop _ _ _ Hk Hc).
    reflexivity.
  - intros HL HA [k [v [Hk Hc]]].
    destruct (Labels namespace) as [L |]; [| congruence].
    destruct (assign_range_lookup L (dropLokomotiveKeys nsLabels)) as [L' [HL' _]].
    rewrite HL', HA.
    rewrite assignEntries_None by exact (user_key_survives_drop _ _ _ Hk Hc).
    reflexivity.
Qed.

(** The failing input: the namespace "monitoring" already carries the user
    label team=platform, and UpdateNamespace is called with nil Labels and
    Annotations; it panics instead of sending an update that keeps the label. *)
Lemma update_namespace_merges_or_panics_witness :
  let env := {| clientsetErr := None;
                nsGet := fun _ => NsFound (Some (<["team" := "platform"]> ∅)) None;
                nsUpdate := fun _ => None |} in
  let namespace := {| Name := "monitoring"; Labels := None; Annotations := None |} in
  UpdateNamespace env namespace = ([], Panic nilMapPanic).
Proof.
  intros env namespace.
  refine (proj1 (proj2 (update_namespace_merges_or_panics env namespace
            (Some (<["team" := "platform"]> ∅)) None eq_refl _ eq_refl)) eq_refl _).
  - discriminate.
  - exists "team", "platform". split; reflexivity.
Defined.

End K8sutilFacts.

Module KubeconfigFacts.
Import Kubeconfig.

Lemma Clean_nonempty (path : string) : Clean path <> "".
Proof.
  unfold Clean. cbv zeta.
  destruct (String.eqb _ "") eqn:E; [discriminate |].
  intros H. rewrite H in E. discriminate.
Qed.

Lemma Join_nonempty_head (e : string) (rest : list string) :
  e <> "" -> Join (e :: rest) = Clean (String.concat "/" (e :: rest)).
Proof.
  intros He. simpl. destruct (String.eqb_spec e "") as [E | _]; [congruence |].
  reflexivity.
Qed.

Lemma assetsKubeconfigPath_spec (assetDir : string) :
  assetsKubeconfigPath assetDir =
    inl (if String.eqb assetDir "" then ""
         else Clean (assetDir ++ "/cluster-assets/auth/kubeconfig")).
Proof.
  unfold assetsKubeconfigPath, assetsKubeconfig.
  destruct (String.eqb_spec assetDir "") as [-> | Hne]; [reflexivity |].
  simpl negb. rewrite Join_nonempty_head by exact Hne. reflexivity.
Qed.

Lemma selectPath_pickString (paths : list string) : selectPath "" paths = pickString paths.
Proof. induction paths as [|p paths IH]; simpl; [reflexivity |]. rewrite IH. reflexivity. Qed.

Lemma pickString_firstNonEmpty (options : list string) : pickString options = firstNonEmpty options.
Proof.
  induction options as [|o options IH]; simpl; [reflexivity |].
  rewrite IH. destruct (String.eqb o ""); reflexivity.
Qed.

Lemma expandKubeconfigPath_no_tilde (home : string + string) (path : string) :
  String.prefix "~" path = false -> expandKubeconfigPath home path = path.
Proof.
  unfold expandKubeconfigPath, Expand.
  destruct path as [|c rest]; [reflexivity |].
  intros H.
  change ((if Ascii.ascii_dec "~"%char c then String.prefix "" rest else false) = false) in H.
  destruct (Ascii.ascii_dec "~"%char c) as [<- | Hne]; [destruct rest; discriminate H |].
  destruct (Ascii.eqb_spec c "~"%char) as [E | _]; [congruence | reflexivity].
Qed.

(** Counterexample to C10: with no flag, no asset directory, no KUBECONFIG
    and the home directory /root, the path returned is /root/.kube/config,
    not the literal first non-empty candidate "~/.kube/config". *)
Lemma default_kubeconfig_is_expanded :
  getKubeconfig "" "" (inl "/root") "" = inl "/root/.kube/config" /\
  kubeconfigPath "" "" (inl "/root") "" = "/root/.kube/config" /\
  specKubeconfig "" "" "" = "~/.kube/config" /\
  "/root/.kube/config" <> "~/.kube/config".
Proof. split; [reflexivity | split; [reflexivity | split; [reflexivity | discriminate]]]. Qed.

(** C10 (getKubeconfig, kubeconfigPath, assetsKubeconfigPath), as amended:
    both functions return the home-expanded form of the first non-empty
    entry of [flag; asset path; KUBECONFIG; "~/.kube/config"]; the asset
    path is filepath.Join(assetDir, "cluster-assets", "auth", "kubeconfig"),
    i.e. the cleaned [assetDir/cluster-assets/auth/kubeconfig], non-empty
    exactly when assetDir is; KUBECONFIG is not consulted when the flag or
    the asset directory is set; an entry not starting with "~" is returned
    as is, and the default becomes [<home>/.kube/config]. *)
Theorem kubeconfig_resolution :
  forall (flag env : string) (home : string + string) (assetDir : string),
  let asset := if String.eqb assetDir "" then ""
               else Clean (assetDir ++ "/cluster-assets/auth/kubeconfig") in
  getKubeconfig flag env home assetDir =
    inl (expandKubeconfigPath home (firstNonEmpty [flag; asset; env; defaultKubeconfigPath])) /\
  (asset = "" <-> assetDir = "") /\
  inl (kubeconfigPath flag env home assetDir) = getKubeconfig flag env home assetDir /\
  ((flag <> "" \/ assetDir <> "") ->
     forall env', getKubeconfig flag env' home assetDir = getKubeconfig flag env home assetDir) /\
  (forall path, String.prefix "~" path = false -> expandKubeconfigPath home path = path) /\
  (forall dir, home = inl dir -> flag = "" -> assetDir = "" -> env = "" ->
     getKubeconfig flag env home assetDir = inl (Join [dir; "/.kube/config"])).
Proof.
  intros flag env home assetDir asset.
  assert (Hget : forall env', getKubeconfig flag env' home assetDir =
    inl (expandKubeconfigPath home (firstNonEmpty [flag; asset; env'; defaultKubeconfigPath]))).
  { intros env'. unfold getKubeconfig. rewrite assetsKubeconfigPath_spec.
    rewrite pickString_firstNonEmpty. reflexivity. }
  split; [apply Hget |].
  split; [| split; [| split; [| split]]].
  - subst asset. destruct (String.eqb_spec assetDir "") as [E | Hne].
    + split; intros _; [exact E | reflexivity].
    + split; [intros H; exfalso; exact (Clean_nonempty _ H) | intros H; congruence].
  - rewrite Hget. unfold kubeconfigPath.
    rewrite selectPath_pickString, pickString_firstNonEmpty.
    assert (Hasset : (if negb (String.eqb assetDir "")
                      then Join [assetDir; "cluster-assets"; "auth"; "kubeconfig"] else "") = asset).
    { subst asset. destruct (String.eqb_spec assetDir "") as [E | Hne]; [rewrite E; reflexivity |].
      simpl negb. rewrite Join_nonempty_head by exact Hne. reflexivity. }
    rewrite Hasset. reflexivity.
  - intros Hset env'. rewrite !Hget. f_equal. f_equal. simpl.
    destruct (String.eqb_spec flag "") as [Hf | Hf]; [| reflexivity].
    destruct Hset as [Hset | Hset]; [congruence |].
    subst asset. destruct (String.eqb_spec assetDir "") as [Ha | Ha]; [congruence |].
    destruct (String.eqb_spec (Clean (assetDir ++ "/cluster-assets/auth/kubeconfig")) "") as [Hc | _];
      [exfalso; exact (Clean_nonempty _ Hc) | reflexivity].
  - apply expandKubeconfigPath_no_tilde.
  - intros dir -> -> -> ->. rewrite Hget. reflexivity.
Qed.

End KubeconfigFacts.

Module AksExtraFacts.
Import Aks.

(** A decoded field that is empty is replaced by a fallback; the result is
    non-empty when one of the two is. *)
Lemma fill_nonempty (x y : string) :
  x <> "" \/ y <> "" -> (if String.eqb x "" then y else x) <> "".
Proof. destruct (String.eqb_spec x ""); intros [H | H]; congruence. Qed.

Lemma concat_map_nil_in {A B : Type} (h : A -> list B) (l : list A) (x : A) :
  concat (map h l) = [] -> x ∈ l -> h x = [].
Proof.
  induction l as [|y l IH]; simpl; intros H Hx; [inversion Hx |].
  apply app_eq_nil in H as [H1 H2].
  apply elem_of_cons in Hx as [-> | Hx]; [exact H1 | exact (IH H2 Hx)].
Qed.

(** No duplicate is reported after a prefix [pre] of distinct names: the
    names are all distinct. *)
Lemma names_nodup (pools pre : list workerPool) :
  NoDup (map Name pre) ->
  concat (imap (fun i w =>
    if bool_decide (Name w ∈ map Name (pre ++ take i pools)) then [Name w] else []) pools) = [] ->
  NoDup (map Name (pre ++ pools)).
Proof.
  revert pre. induction pools as [|w rest IH]; intros pre Hnd H.
  - rewrite app_nil_r. exact Hnd.
  - rewrite AksFacts.duplicated_after_cons in H. apply app_eq_nil in H as [H1 H2].
    destruct (decide (Name w ∈ map Name pre)) as [Hin | Hin].
    + rewrite bool_decide_true in H1 by exact Hin. discriminate H1.
    + replace (pre ++ w :: rest)%list with ((pre ++ [w]) ++ rest)%list
        by (rewrite <- app_assoc; reflexivity).
      apply IH; [| exact H2].
      rewrite map_app. simpl. apply NoDup_app. split; [exact Hnd | split].
      * intros x Hx Hx'. apply list_elem_of_singleton in Hx'. subst x. contradiction.
      * apply NoDup_singleton.
Qed.

Lemma checkWorkerPoolNamesUnique_nil (c : Config) :
  checkWorkerPoolNamesUnique c = [] -> NoDup (map Name (WorkerPools c)).
Proof.
  rewrite AksFacts.checkWorkerPoolNamesUnique_spec. intros H. apply map_eq_nil in H.
  exact (names_nodup (WorkerPools c) [] (NoDup_nil_2) H).
Qed.

Lemma checkNotEmptyWorkers_nil (c : Config) :
  checkNotEmptyWorkers c = [] -> WorkerPools c <> [].
Proof. unfold checkNotEmptyWorkers. destruct (WorkerPools c); [discriminate | congruence]. Qed.

Lemma checkWorkerPools_nil (c : Config) :
  checkWorkerPools c = [] ->
  Forall (fun w => VMSize w <> "" /\ (0 < Count w)%Z) (WorkerPools c).
Proof.
  unfold checkWorkerPools. intros H. apply Forall_forall. intros w Hw.
  pose proof (concat_map_nil_in _ _ w H Hw) as Hw'. cbv beta in Hw'.
  apply app_eq_nil in Hw' as [H1 H2].
  destruct (String.eqb_spec (VMSize w) ""); [discriminate H1 |].
  destruct (Z.leb_spec (Count w) 0); [discriminate H2 |].
  split; [assumption | lia].
Qed.

Lemma checkCredentials_nil (getenv : string -> string) (c : Config) :
  checkCredentials getenv c = [] -> ApplicationName c = "" ->
  (ClientSecret c <> "" \/ getenv clientSecretEnv <> "") /\
  (ClientID c <> "" \/ getenv clientIDEnv <> "").
Proof.
  unfold checkCredentials. intros H HA. rewrite HA in H. simpl in H.
  apply app_eq_nil in H as [H1 H2].
  destruct (String.eqb_spec (ClientSecret c) ""), (String.eqb_spec (getenv clientSecretEnv) "");
    try discriminate H1;
  destruct (String.eqb_spec (ClientID c) ""), (String.eqb_spec (getenv clientIDEnv) "");
    try discriminate H2; tauto.
Qed.

(** An entry of a map whose [range] produced no diagnostic. *)
Lemma range_entry_nonempty {B : Type} (rangeOrder : gmap string string -> list (string * string))
  (f : gmap string string) (h : string * string -> list B) (k v : string) :
  rangeOrder f ≡ₚ map_to_list f -> concat (map h (rangeOrder f)) = [] -> f !! k = Some v ->
  (forall k' v', h (k', v') = [] -> v' <> "") -> v <> "".
Proof.
  intros Hperm H3 Hkv Hh. apply (Hh k).
  apply (concat_map_nil_in h (rangeOrder f)); [exact H3 |].
  apply list_elem_of_In. apply (Permutation_in _ (Permutation_sym Hperm)).
  apply list_elem_of_In. apply elem_of_map_to_list. exact Hkv.
Qed.

Lemma checkRequiredFields_nil (getenv : string -> string)
  (rangeOrder : gmap string string -> list (string * string)) (c : Config) :
  (forall f, rangeOrder f ≡ₚ map_to_list f) ->
  checkRequiredFields getenv rangeOrder c = [] ->
  (SubscriptionID c <> "" \/ getenv subscriptionIDEnv <> "") /\
  (TenantID c <> "" \/ getenv tenantIDEnv <> "") /\
  AssetDir c <> "" /\ ClusterName c <> "" /\ ResourceGroupName c <> "".
Proof.
  intros Hperm H. unfold checkRequiredFields in H.
  apply app_eq_nil in H as [H1 H]. apply app_eq_nil in H as [H2 H3]. cbv zeta in H3.
  assert (Hkey : forall k v,
    <["AssetDir" := AssetDir c]> (<["ClusterName" := ClusterName c]>
      (<["ResourceGroupName" := ResourceGroupName c]> (∅ : gmap string string))) !! k = Some v ->
    v <> "").
  { intros k v Hkv. eapply (range_entry_nonempty rangeOrder _ _ k v (Hperm _) H3 Hkv).
    intros k' v' Hv. destruct (String.eqb_spec v' ""); [discriminate Hv | assumption]. }
  split; [| split; [| split; [| split]]].
  - destruct (String.eqb_spec (SubscriptionID c) ""), (String.eqb_spec (getenv subscriptionIDEnv) "");
      try discriminate H1; tauto.
  - destruct (String.eqb_spec (TenantID c) ""), (String.eqb_spec (getenv tenantIDEnv) "");
      try discriminate H2; tauto.
  - apply (Hkey "AssetDir"). apply lookup_insert_eq.
  - apply (Hkey "ClusterName").
    rewrite lookup_insert_ne by discriminate. apply lookup_insert_eq.
  - apply (Hkey "ResourceGroupName").
    rewrite !lookup_insert_ne by discriminate. apply lookup_insert_eq.
Qed.

(** What a successful NewConfig returns: the decoded configuration, which
    had no decoding diagnostics and passed validate, with the four
    credentials filled from the environment when empty. *)
Lemma NewConfig_Some_inv {hclBody : Type} (DecodeBody : hclBody -> Config -> Config * list diagnostic)
  (getenv : string -> string) (rangeOrder : gmap string string -> list (string * string))
  (b : option hclBody) (c' : Config) (ds : list diagnostic) :
  NewConfig DecodeBody getenv rangeOrder b = (Some c', ds) ->
  exists body c, b = Some body /\ DecodeBody body defaultConfig = (c, []) /\
    validate getenv rangeOrder c = [] /\ ds = [] /\
    ClientSecret c' = (if String.eqb (ClientSecret c) "" then getenv clientSecretEnv else ClientSecret c) /\
    SubscriptionID c' = (if String.eqb (SubscriptionID c) "" then getenv subscriptionIDEnv else SubscriptionID c) /\
    ClientID c' = (if String.eqb (ClientID c) "" then getenv clientIDEnv else ClientID c) /\
    TenantID c' = (if String.eqb (TenantID c) "" then getenv tenantIDEnv else TenantID c) /\
    AssetDir c' = AssetDir c /\ ClusterName c' = ClusterName c /\ Tags c' = Tags c /\
    Location c' = Location c /\ ApplicationName c' = ApplicationName c /\
    ResourceGroupName c' = ResourceGroupName c /\
    ManageResourceGroup c' = ManageResourceGroup c /\ WorkerPools c' = WorkerPools c /\
    KubernetesVersion c' = KubernetesVersion c.
Proof.
  unfold NewConfig. intros H.
  destruct b as [body |]; [| discriminate H].
  destruct (DecodeBody body defaultConfig) as [c d] eqn:Hd.
  destruct d as [| x d]; [| discriminate H].
  destruct (validate getenv rangeOrder c) as [| y v] eqn:Hv; [| discriminate H].
  injection H as <- <-. exists body, c.
  split; [reflexivity | split; [exact Hd | split; [exact Hv | split; [reflexivity |]]]].
  destruct (String.eqb (ClientSecret c) "") eqn:E1; cbn;
  destruct (String.eqb (SubscriptionID c) "") eqn:E2; cbn;
  destruct (String.eqb (ClientID c) "") eqn:E3; cbn;
  destruct (String.eqb (TenantID c) "") eqn:E4; cbn;
  repeat split.
Qed.

Lemma wrapInt_add (a b : Z) : wrapInt (wrapInt a + b) = wrapInt (a + b).
Proof.
  unfold wrapInt.
  replace ((a + 2 ^ 63) mod 2 ^ 64 - 2 ^ 63 + b + 2 ^ 63)%Z
    with ((a + 2 ^ 63) mod 2 ^ 64 + b)%Z by ring.
  rewrite Z.add_mod_idemp_l by lia. f_equal. f_equal. ring.
Qed.

Lemma Nodes_fold (pools : list workerPool) (a : Z) :
  fold_left (fun nodes wp => wrapInt (nodes + Count wp)) pools (wrapInt a) =
  wrapInt (a + fold_right Z.add 0 (map Count pools))%Z.
Proof.
  revert a. induction pools as [|w rest IH]; intros a; simpl.
  - rewrite Z.add_0_r. reflexivity.
  - rewrite wrapInt_add, IH, Z.add_assoc. reflexivity.
Qed.

(** X1 (platform.AppendVersionTag): the tags after the call are never nil;
    every tag other than lokoctl-version keeps its value (a nil map reading
    as empty), and lokoctl-version is set to the version when the version is
    not empty and is left as it was otherwise. *)
Theorem AppendVersionTag_frame (version : string) (tags : option (gmap string string)) :
  exists m, AppendVersionTag version tags = Some m /\
    (forall k, k <> "lokoctl-version" -> m !! k = default ∅ tags !! k) /\
    m !! "lokoctl-version" =
      (if String.eqb version "" then default ∅ tags !! "lokoctl-version" else Some version).
Proof.
  unfold AppendVersionTag. eexists. split; [reflexivity |].
  assert (Hm : (match tags with None => ∅ | Some m => m end) = default ∅ tags)
    by (destruct tags; reflexivity).
  rewrite Hm. destruct (String.eqb version ""); split.
  - reflexivity.
  - reflexivity.
  - intros k Hk. rewrite lookup_insert_ne by congruence. reflexivity.
  - apply lookup_insert_eq.
Qed.

(** X2 (NewConfig, validate and its checks): a configuration returned by
    NewConfig, when Go's map iteration visits each entry once, has at least
    one worker pool, distinct pool names, a VM size and a positive count in
    every pool, a non-empty asset dir, cluster name and resource group, a
    subscription ID and a tenant ID (from the configuration or from the
    environment), and, when no application name is given, a client ID and a
    client secret; no diagnostics are returned with it. *)
Theorem NewConfig_valid {hclBody : Type}
  (DecodeBody : hclBody -> Config -> Config * list diagnostic)
  (getenv : string -> string) (rangeOrder : gmap string string -> list (string * string))
  (b : option hclBody) (c' : Config) (ds : list diagnostic) :
  (forall f, rangeOrder f ≡ₚ map_to_list f) ->
  NewConfig DecodeBody getenv rangeOrder b = (Some c', ds) ->
  ds = [] /\ WorkerPools c' <> [] /\ NoDup (map Name (WorkerPools c')) /\
  Forall (fun w => VMSize w <> "" /\ (0 < Count w)%Z) (WorkerPools c') /\
  AssetDir c' <> "" /\ ClusterName c' <> "" /\ ResourceGroupName c' <> "" /\
  SubscriptionID c' <> "" /\ TenantID c' <> "" /\
  (ApplicationName c' = "" -> ClientID c' <> "" /\ ClientSecret c' <> "").
Proof.
  intros Hperm H.
  destruct (NewConfig_Some_inv _ _ _ _ _ _ H) as
    (body & c & _ & _ & Hv & Hds & Hcs & Hsub & Hcid & Hten & Had & Hcn & _ & _ & Happ & Hrg & _ & Hwp & _).
  unfold validate in Hv.
  apply app_eq_nil in Hv as [V1 Hv]. apply app_eq_nil in Hv as [V2 Hv].
  apply app_eq_nil in Hv as [V3 Hv]. apply app_eq_nil in Hv as [V4 V5].
  rewrite Hcs, Hsub, Hcid, Hten, Had, Hcn, Happ, Hrg, Hwp.
  destruct (checkRequiredFields_nil _ _ _ Hperm V5) as (Hs & Ht & Ha & Hc & Hr).
  split; [exact Hds |]. split; [exact (checkNotEmptyWorkers_nil _ V1) |].
  split; [exact (checkWorkerPoolNamesUnique_nil _ V2) |].
  split; [exact (checkWorkerPools_nil _ V3) |].
  split; [exact Ha |]. split; [exact Hc |]. split; [exact Hr |].
  split; [exact (fill_nonempty _ _ Hs) |]. split; [exact (fill_nonempty _ _ Ht) |].
  intros HA. destruct (checkCredentials_nil _ _ V4 HA) as [Hsec Hid].
  split; apply fill_nonempty; assumption.
Qed.

Lemma NewConfig_valid_witness :
  let pool := {| Name := "workers"; Count := 2%Z; VMSize := "Standard_D2_v2";
                 Labels := ∅; Taints := [] |} in
  let conf := {| AssetDir := "assets"; ClusterName := "demo"; Tags := None; TenantID := "t";
                 SubscriptionID := "s"; ClientID := "id"; ClientSecret := "secret";
                 Location := "West Europe"; ApplicationName := ""; ResourceGroupName := "rg";
                 ManageResourceGroup := true; WorkerPools := [pool];
                 KubernetesVersion := "1.16.10" |} in
  let decode := fun (_ : unit) (_ : Config) => (conf, @nil diagnostic) in
  (forall f : gmap string string, map_to_list f ≡ₚ map_to_list f) /\
  NewConfig decode (fun _ => "") map_to_list (Some tt) = (Some conf, []) /\
  ([] : list diagnostic) = [] /\ WorkerPools conf <> [] /\ NoDup (map Name (WorkerPools conf)) /\
  Forall (fun w => VMSize w <> "" /\ (0 < Count w)%Z) (WorkerPools conf) /\
  AssetDir conf <> "" /\ ClusterName conf <> "" /\ ResourceGroupName conf <> "" /\
  SubscriptionID conf <> "" /\ TenantID conf <> "" /\
  (ApplicationName conf = "" -> ClientID conf <> "" /\ ClientSecret conf <> "").
Proof.
  intros pool conf decode.
  assert (Hp : forall f : gmap string string, map_to_list f ≡ₚ map_to_list f) by reflexivity.
  assert (Hn : NewConfig decode (fun _ => "") map_to_list (Some tt) = (Some conf, []))
    by (vm_compute; reflexivity).
  split; [exact Hp | split; [exact Hn |]].
  exact (NewConfig_valid decode (fun _ => "") map_to_list (Some tt) conf [] Hp Hn).
Defined.

(** X3 (NewConfig, validate, checkCredentials): the configuration NewConfig
    returns need not pass validate itself, since the credentials are taken
    from the environment after validation.  Validated again (in the same
    environment), it gives no diagnostic when no application name is set;
    with an application name it gives exactly "ClientID and
    ApplicationName are mutually exclusive" when LOKOMOTIVE_AKS_CLIENT_ID is
    set and "ClientSecret and ApplicationName are mutually exclusive" when
    LOKOMOTIVE_AKS_CLIENT_SECRET is set. *)
Theorem NewConfig_revalidate {hclBody : Type}
  (DecodeBody : hclBody -> Config -> Config * list diagnostic)
  (getenv : string -> string) (rangeOrder : gmap string string -> list (string * string))
  (b : option hclBody) (c' : Config) (ds : list diagnostic) :
  NewConfig DecodeBody getenv rangeOrder b = (Some c', ds) ->
  validate getenv rangeOrder c' =
    if String.eqb (ApplicationName c') "" then [] else
    ((if negb (String.eqb (getenv clientIDEnv) "") then
        [{| Severity := DiagError; Summary := "ClientID and ApplicationName are mutually exclusive";
            Detail := "" |}] else []) ++
     (if negb (String.eqb (getenv clientSecretEnv) "") then
        [{| Severity := DiagError; Summary := "ClientSecret and ApplicationName are mutually exclusive";
            Detail := "" |}] else []))%list.
Proof.
  intros H.
  destruct (NewConfig_Some_inv _ _ _ _ _ _ H) as
    (body & c & _ & _ & Hv & _ & Hcs & Hsub & Hcid & Hten & Had & Hcn & _ & _ & Happ & Hrg & _ & Hwp & _).
  unfold validate in Hv |- *.
  apply app_eq_nil in Hv as [V1 Hv]. apply app_eq_nil in Hv as [V2 Hv].
  apply app_eq_nil in Hv as [V3 Hv]. apply app_eq_nil in Hv as [V4 V5].
  assert (E1 : checkNotEmptyWorkers c' = []) by (unfold checkNotEmptyWorkers in *; rewrite Hwp; exact V1).
  assert (E2 : checkWorkerPoolNamesUnique c' = [])
    by (unfold checkWorkerPoolNamesUnique in *; rewrite Hwp; exact V2).
  assert (E3 : checkWorkerPools c' = []) by (unfold checkWorkerPools in *; rewrite Hwp; exact V3).
  assert (E5 : checkRequiredFields getenv rangeOrder c' = []).
  { unfold checkRequiredFields in V5 |- *. cbv zeta in V5 |- *.
    rewrite Had, Hcn, Hrg, Hsub, Hten.
    apply app_eq_nil in V5 as [W1 V5]. apply app_eq_nil in V5 as [W2 W3]. rewrite W3.
    destruct (String.eqb_spec (SubscriptionID c) ""), (String.eqb_spec (getenv subscriptionIDEnv) "");
      try discriminate W1;
    destruct (String.eqb_spec (TenantID c) ""), (String.eqb_spec (getenv tenantIDEnv) "");
      try discriminate W2;
    cbn; rewrite ?(proj2 (String.eqb_neq _ _)) by assumption; reflexivity. }
  rewrite E1, E2, E3, E5, Happ. simpl.
  unfold checkCredentials in V4 |- *. rewrite Happ, Hcs, Hcid.
  destruct (String.eqb_spec (ApplicationName c) "") as [HA | HA].
  - simpl in V4 |- *. apply app_eq_nil in V4 as [W1 W2].
    destruct (String.eqb_spec (ClientSecret c) ""), (String.eqb_spec (getenv clientSecretEnv) "");
      try discriminate W1;
    destruct (String.eqb_spec (ClientID c) ""), (String.eqb_spec (getenv clientIDEnv) "");
      try discriminate W2;
    cbn; rewrite ?(proj2 (String.eqb_neq _ _)) by assumption; reflexivity.
  - simpl in V4 |- *. apply app_eq_nil in V4 as [W1 W2].
    destruct (String.eqb_spec (ClientID c) ""); [| discriminate W1].
    destruct (String.eqb_spec (ClientSecret c) ""); [| discriminate W2].
    rewrite !app_nil_r. reflexivity.
Qed.

Lemma NewConfig_revalidate_witness :
  let pool := {| Name := "workers"; Count := 2%Z; VMSize := "Standard_D2_v2";
                 Labels := ∅; Taints := [] |} in
  let conf := {| AssetDir := "assets"; ClusterName := "demo"; Tags := None; TenantID := "t";
                 SubscriptionID := "s"; ClientID := ""; ClientSecret := "";
                 Location := "West Europe"; ApplicationName := "app"; ResourceGroupName := "rg";
                 ManageResourceGroup := true; WorkerPools := [pool];
                 KubernetesVersion := "1.16.10" |} in
  let decode := fun (_ : unit) (_ : Config) => (conf, @nil diagnostic) in
  let getenv := fun k => if String.eqb k clientIDEnv then "env-id" else "" in
  let result := setClientID conf "env-id" in
  NewConfig decode getenv map_to_list (Some tt) = (Some result, []) /\
  validate getenv map_to_list result =
    [{| Severity := DiagError; Summary := "ClientID and ApplicationName are mutually exclusive";
        Detail := "" |}] /\
  validate getenv map_to_list result =
    if String.eqb (ApplicationName result) "" then [] else
    ((if negb (String.eqb (getenv clientIDEnv) "") then
        [{| Severity := DiagError; Summary := "ClientID and ApplicationName are mutually exclusive";
            Detail := "" |}] else []) ++
     (if negb (String.eqb (getenv clientSecretEnv) "") then
        [{| Severity := DiagError; Summary := "ClientSecret and ApplicationName are mutually exclusive";
            Detail := "" |}] else []))%list.
Proof.
  intros pool conf decode getenv result.
  assert (Hn : NewConfig decode getenv map_to_list (Some tt) = (Some result, []))
    by (vm_compute; reflexivity).
  split; [exact Hn | split; [vm_compute; reflexivity |]].
  exact (NewConfig_revalidate decode getenv map_to_list (Some tt) result [] Hn).
Defined.

(** X4 (validate, checkRequiredFields): the diagnostics of validate do not
    depend on the order in which Go's range visits the map of required
    fields: two visiting orders that list the same entries give the same
    diagnostics, possibly in another order. *)
Theorem validate_order_independent (getenv : string -> string)
  (rangeOrder1 rangeOrder2 : gmap string string -> list (string * string)) (c : Config) :
  (forall f, rangeOrder1 f ≡ₚ rangeOrder2 f) ->
  validate getenv rangeOrder1 c ≡ₚ validate getenv rangeOrder2 c.
Proof.
  intros Hperm. unfold validate, checkRequiredFields. cbv zeta.
  do 6 apply Permutation_app_head.
  rewrite <- !flat_map_concat_map. apply Permutation_flat_map. apply Hperm.
Qed.

Lemma validate_order_independent_witness :
  (forall f : gmap string string, map_to_list f ≡ₚ rev (map_to_list f)) /\
  validate (fun _ => "") map_to_list defaultConfig ≡ₚ
  validate (fun _ => "") (fun f => rev (map_to_list f)) defaultConfig.
Proof.
  assert (Hp : forall f : gmap string string, map_to_list f ≡ₚ rev (map_to_list f))
    by (intros f; apply Permutation_rev).
  split; [exact Hp |].
  exact (validate_order_independent (fun _ => "") map_to_list (fun f => rev (map_to_list f))
           defaultConfig Hp).
Defined.

(** X5 (Cluster.Nodes): the node count is the sum of the worker pools'
    counts wrapped around to a 64-bit Go int; when that sum fits in an int it
    is the exact sum. *)
Theorem Nodes_sum (c : Cluster) :
  Nodes c = wrapInt (fold_right Z.add 0 (map Count (WorkerPools (config c))))%Z /\
  ((- 2 ^ 63 <= fold_right Z.add 0 (map Count (WorkerPools (config c))) <= 2 ^ 63 - 1)%Z ->
   Nodes c = fold_right Z.add 0%Z (map Count (WorkerPools (config c)))).
Proof.
  assert (H : Nodes c = wrapInt (fold_right Z.add 0 (map Count (WorkerPools (config c))))%Z).
  { pose proof (Nodes_fold (WorkerPools (config c)) 0) as Hf.
    change (wrapInt 0) with 0%Z in Hf. rewrite Z.add_0_l in Hf. exact Hf. }
  split; [exact H |]. intros Hr. rewrite H. unfold wrapInt.
  rewrite Z.mod_small by lia. lia.
Qed.

(** X6 (TerraformExecutionPlan, ControlPlaneCharts, Managed, used by
    runClusterApply): for an AKS cluster, cluster apply hands the executor
    exactly one command, [terraform apply -auto-approve], with no
    pre-execution hook, and ends with "Execution of step "Create
    infrastructure" failed: <err>" exactly when that command fails; the
    control-plane upgrade phase never upgrades anything. *)
Theorem aks_apply_single_step {Executor : Type}
  (Execute : Executor -> list string -> Executor * option string) (ex : Executor)
  (c : Cluster) (exists' upgradeKubelets : bool) (upgradeComponent : string -> option string) :
  ClusterApply.runPlan Execute ex (TerraformExecutionPlan c) =
    (fst (Execute ex ["apply"; "-auto-approve"]),
     [ClusterApply.EvExec ["apply"; "-auto-approve"]],
     option_map (fun err => "Execution of step " ++ quote "Create infrastructure" ++ " failed: " ++ err)
       (snd (Execute ex ["apply"; "-auto-approve"]))) /\
  ClusterApply.controlplaneUpgrade exists' (Managed c) upgradeKubelets (ControlPlaneCharts c)
    upgradeComponent = ([], None).
Proof.
  split.
  - unfold TerraformExecutionPlan. simpl. unfold ClusterApply.runStep, ClusterApply.runExecute. simpl.
    destruct (Execute ex ["apply"; "-auto-approve"]) as [ex' [err |]]; reflexivity.
  - unfold ClusterApply.controlplaneUpgrade, Managed. rewrite andb_false_r. reflexivity.
Qed.

End AksExtraFacts.

Module HelmExtraFacts.
Import Helm.

Lemma uninstallRun_state env st ns name :
  (releases (fst (uninstallRun env st ns name)) = releases st \/
   releases (fst (uninstallRun env st ns name)) = releases st ∖ {[(ns, name)]}) /\
  namespaces (fst (uninstallRun env st ns name)) = namespaces st /\
  terminating (fst (uninstallRun env st ns name)) = terminating st.
Proof.
  unfold uninstallRun. destruct (uninstallFailure env); [auto |].
  case_bool_decide; [destruct (uninstallDeleteErr env) |]; simpl; auto.
Qed.

Lemma deleteNS_state env st ns :
  releases (fst (deleteNS env st ns)) = releases st /\
  namespaces (fst (deleteNS env st ns)) = namespaces st /\
  (terminating (fst (deleteNS env st ns)) = terminating st \/
   (ns ∈ namespaces st /\ terminating (fst (deleteNS env st ns)) = terminating st ∪ {[ns]})).
Proof.
  unfold deleteNS, namespaceDelete.
  destruct (readKubeconfigErr env), (clientsetErr env), (nsDeleteFailure env); simpl; auto.
  destruct (decide (ns ∈ namespaces st)) as [Hin | Hin].
  - rewrite bool_decide_true by exact Hin. case_bool_decide; simpl; auto.
  - rewrite bool_decide_false by exact Hin. simpl. auto.
Qed.

(** Whatever the services answer, deleteHelmRelease removes at most the
    component's release record and marks at most its namespace
    Terminating, the latter only when namespace deletion is asked. *)
Lemma deleteHelmRelease_state env st name ns deleteNSBool :
  let st' := fst (fst (deleteHelmRelease env st name ns deleteNSBool)) in
  (releases st' = releases st \/ releases st' = releases st ∖ {[(ns, name)]}) /\
  namespaces st' = namespaces st /\
  (terminating st' = terminating st \/
   (deleteNSBool = true /\ ns ∈ namespaces st /\ terminating st' = terminating st ∪ {[ns]})).
Proof.
  unfold deleteHelmRelease.
  destruct (String.eqb name ""); [simpl; auto |].
  destruct (String.eqb ns ""); [simpl; auto |].
  destruct (helmActionConfigErr env); [simpl; auto |].
  destruct (historyRun env st ns name) as [e |].
  - destruct deleteNSBool; [| simpl; auto].
    pose proof (deleteNS_state env st ns) as (Hr & Hn & Ht).
    destruct (deleteNS env st ns) as [st2 r2]. simpl in *.
    split; [left; exact Hr | split; [exact Hn | destruct Ht as [Ht | Ht]; auto]].
  - pose proof (uninstallRun_state env st ns name) as (Hr & Hn & Ht).
    destruct (uninstallRun env st ns name) as [st1 r]. simpl in Hr, Hn, Ht.
    destruct (option_map errString r) as [e |]; [simpl; auto |].
    destruct deleteNSBool; [| simpl; auto].
    pose proof (deleteNS_state env st1 ns) as (Hr2 & Hn2 & Ht2).
    destruct (deleteNS env st1 ns) as [st2 r2]. simpl in *.
    rewrite Hr2, Hn2. rewrite Hn, Ht in Ht2.
    split; [exact Hr | split; [exact Hn | destruct Ht2 as [H | [H1 H2]]; auto]].
Qed.

(** What the namespace controller leaves of the releases when a release
    record is removed and a namespace is marked Terminating. *)
Lemma namespaceController_frame (st st' : clusterState) (ns name : string) (marked : bool) :
  (releases st' = releases st \/ releases st' = releases st ∖ {[(ns, name)]}) ->
  (terminating st' = terminating st \/ (marked = true /\ terminating st' = terminating st ∪ {[ns]})) ->
  releases (namespaceController st') = releases (namespaceController st) \/
  releases (namespaceController st') = releases (namespaceController st) ∖ {[(ns, name)]} \/
  (marked = true /\
   releases (namespaceController st') =
     filter (fun p : string * string => p.1 <> ns) (releases (namespaceController st))).
Proof.
  unfold namespaceController. simpl. intros Hr Ht.
  destruct Ht as [Ht | [Hm Ht]]; rewrite Ht; destruct Hr as [Hr | Hr]; rewrite Hr.
  - left. reflexivity.
  - right; left. apply set_eq. intros [a b].
    rewrite elem_of_difference, !elem_of_filter, elem_of_difference. simpl. set_solver.
  - right; right. split; [exact Hm |]. apply set_eq. intros [a b].
    rewrite !elem_of_filter. simpl. set_solver.
  - right; right. split; [exact Hm |]. apply set_eq. intros [a b].
    rewrite !elem_of_filter, elem_of_difference. simpl. set_solver.
Qed.

(** X7 (deleteHelmRelease, deleteNS): whatever the services answer,
    deleteHelmRelease removes at most the release record of the component
    and, only when namespace deletion is asked, marks its namespace
    Terminating, and nothing else.  Once the namespace controller has
    finished, the releases lost are none, the component's own, or, only
    when namespace deletion was asked, every release in the component's
    namespace, other components' included; releases in other namespaces
    are never affected. *)
Theorem deleteHelmRelease_frame (env : helmEnv) (st : clusterState) (name ns : string)
  (deleteNSBool : bool) :
  let st' := fst (fst (deleteHelmRelease env st name ns deleteNSBool)) in
  (releases st' = releases st \/ releases st' = releases st ∖ {[(ns, name)]}) /\
  namespaces st' = namespaces st /\
  (terminating st' = terminating st \/
   (deleteNSBool = true /\ ns ∈ namespaces st /\ terminating st' = terminating st ∪ {[ns]})) /\
  (releases (namespaceController st') = releases (namespaceController st) \/
   releases (namespaceController st') = releases (namespaceController st) ∖ {[(ns, name)]} \/
   (deleteNSBool = true /\
    releases (namespaceController st') =
      filter (fun p : string * string => p.1 <> ns) (releases (namespaceController st)))).
Proof.
  pose proof (deleteHelmRelease_state env st name ns deleteNSBool) as (Hr & Hn & Ht).
  split; [exact Hr | split; [exact Hn | split; [exact Ht |]]].
  apply namespaceController_frame; [exact Hr |].
  destruct Ht as [Ht | (Hd & _ & Ht)]; [left; exact Ht | right; split; assumption].
Qed.

(** X8 (deleteComponents, deleteHelmRelease, deleteNS): with named
    components and the Helm client, kubeconfig, clientset, history and
    uninstall available, and, when namespace deletion is asked, the
    components in distinct namespaces none of which is already
    Terminating, deleting a list of components succeeds, removes exactly
    their release records (whether they were installed or not), leaves
    every existing namespace of theirs Terminating when namespace deletion
    is asked and touches no other namespace, and prints "Deleting component
    '<name>'..." and "Successfully deleted component "<name>"!" for each in
    order, then an empty line. *)
Theorem deleteComponents_healthy (env : helmEnv) (st : clusterState) (deleteNamespace : bool)
  (componentObjects : list (string * string)) :
  Forall (fun '(name, ns) => name <> "" /\ ns <> "") componentObjects ->
  deleteInfraHealthy env deleteNamespace ->
  historyFailure env = None -> uninstallFailure env = None -> uninstallDeleteErr env = None ->
  (deleteNamespace = true ->
   NoDup (map snd componentObjects) /\
   Forall (fun '(_, ns) => ns ∉ terminating st) componentObjects) ->
  let '(st', out, r) := deleteComponents env st deleteNamespace componentObjects in
  r = Ret None /\
  releases st' = releases st ∖ list_to_set (map (fun '(name, ns) => (ns, name)) componentObjects) /\
  namespaces st' = namespaces st /\
  terminating st' = terminating st ∪
    (if deleteNamespace then list_to_set (map snd componentObjects) ∩ namespaces st else ∅) /\
  out = (flat_map (fun '(name, _) =>
           [("Deleting component '" ++ name ++ "'...")%string;
            ("Successfully deleted component " ++ quote name ++ "!")%string]) componentObjects ++ [""])%list.
Proof.
  intros Hnamed Hinfra Hhist Hun Hdel. revert st.
  induction componentObjects as [| [name ns] rest IH]; intros st Hcond; simpl.
  - split; [reflexivity | split; [set_solver | split; [reflexivity | split; [| reflexivity]]]].
    destruct deleteNamespace; set_solver.
  - apply Forall_cons in Hnamed as [[Hname Hns] Hrest].
    assert (Ht : deleteNamespace = false \/ ns ∉ terminating st).
    { destruct deleteNamespace; [right | left; reflexivity].
      destruct (Hcond eq_refl) as [_ Hf]. apply Forall_cons in Hf as [Hf _]. exact Hf. }
    destruct (HelmFacts.deleteHelmRelease_healthy env st name ns deleteNamespace Hname Hns Hinfra
                Hhist Hun Hdel Ht) as (st1 & Hd & Hr1 & Hn1 & Ht1).
    rewrite Hd.
    assert (Hcond1 : deleteNamespace = true ->
              NoDup (map snd rest) /\ Forall (fun '(_, ns) => ns ∉ terminating st1) rest).
    { intros Hdn. destruct (Hcond Hdn) as [Hnd Hf]. simpl in Hnd.
      apply NoDup_cons in Hnd as [Hnotin Hnd]. apply Forall_cons in Hf as [_ Hf].
      split; [exact Hnd |]. apply Forall_forall. intros [n' ns'] Hin.
      rewrite Forall_forall in Hf. specialize (Hf (n', ns') Hin). simpl in Hf.
      assert (Hne : ns' <> ns).
      { intros ->. apply Hnotin. apply list_elem_of_fmap. exists (n', ns). split; [reflexivity | exact Hin]. }
      rewrite Ht1. destruct (deleteNamespace && bool_decide (ns ∈ namespaces st)); set_solver. }
    specialize (IH Hrest st1 Hcond1).
    destruct (deleteComponents env st1 deleteNamespace rest) as [[st2 out2] r2].
    destruct IH as (Hr & Hrel2 & Hn2 & Ht2 & Hout).
    split; [exact Hr | split; [| split; [| split]]].
    + rewrite Hrel2, Hr1. set_solver.
    + rewrite Hn2, Hn1. reflexivity.
    + rewrite Ht2, Ht1, Hn1. destruct deleteNamespace; simpl; [| set_solver].
      destruct (decide (ns ∈ namespaces st)) as [Hin | Hin];
        [rewrite bool_decide_true by exact Hin | rewrite bool_decide_false by exact Hin]; set_solver.
    + rewrite Hout. reflexivity.
Qed.

(** X9 (deleteComponents): deletion stops at the first component whose
    deletion fails or panics: the components before it were deleted
    successfully, its failure and the state it left are what
    deleteComponents returns, the components after it are never touched, and
    the last line printed is "Deleting component '<name>'..." for it. *)
Theorem deleteComponents_first_failure (env : helmEnv) (deleteNamespace : bool)
  (componentObjects : list (string * string)) (st st' : clusterState) (out : list string)
  (r : goResult) :
  deleteComponents env st deleteNamespace componentObjects = (st', out, r) ->
  r <> Ret None ->
  exists pre name ns post stPre outPre invoked,
    componentObjects = (pre ++ (name, ns) :: post)%list /\
    deleteComponents env st deleteNamespace pre = (stPre, (outPre ++ [""])%list, Ret None) /\
    deleteHelmRelease env stPre name ns deleteNamespace = (st', invoked, r) /\
    out = (outPre ++ [("Deleting component '" ++ name ++ "'...")%string])%list.
Proof.
  revert st st' out r.
  induction componentObjects as [| [name ns] rest IH]; intros st st' out r Heq Hr; simpl in Heq.
  - injection Heq as <- <- <-. congruence.
  - destruct (deleteHelmRelease env st name ns deleteNamespace) as [[st1 inv] r1] eqn:E.
    destruct r1 as [msg | [e |]].
    + injection Heq as <- <- <-. exists [], name, ns, rest, st, [], inv.
      split; [reflexivity | split; [reflexivity | split; [exact E | reflexivity]]].
    + injection Heq as <- <- <-. exists [], name, ns, rest, st, [], inv.
      split; [reflexivity | split; [reflexivity | split; [exact E | reflexivity]]].
    + destruct (deleteComponents env st1 deleteNamespace rest) as [[st2 out2] r2] eqn:E2.
      injection Heq as <- <- <-.
      destruct (IH st1 st2 out2 r2 E2 Hr) as
        (pre & name' & ns' & post & stPre & outPre & invoked & Hsplit & Hpre & Hdel & Hout).
      exists ((name, ns) :: pre), name', ns', post, stPre,
        (("Deleting component '" ++ name ++ "'...") ::
         ("Successfully deleted component " ++ quote name ++ "!") :: outPre), invoked.
      split; [rewrite Hsplit; reflexivity |].
      split; [simpl; rewrite E, Hpre; reflexivity |].
      split; [exact Hdel | rewrite Hout; reflexivity].
Qed.

Lemma deleteComponents_first_failure_witness :
  let env := {| helmActionConfigErr := None; historyFailure := None;
                uninstallFailure := Some "release is locked"; uninstallDeleteErr := None;
                readKubeconfigErr := None;
                clientsetErr := None; nsDeleteFailure := None; chartErr := None;
                valuesErr := None; installFailure := None; upgradeFailure := None |} in
  let st := {| releases := {[("monitoring", "prometheus-operator")]};
               namespaces := {["monitoring"]}; terminating := ∅ |} in
  let comps := [("metrics-server", "kube-system"); ("prometheus-operator", "monitoring");
                ("cert-manager", "cert-manager")] in
  let out := ["Deleting component 'metrics-server'...";
              "Successfully deleted component " ++ quote "metrics-server" ++ "!";
              "Deleting component 'prometheus-operator'..."] in
  deleteComponents env st false comps = (st, out, Ret (Some "release is locked")) /\
  Ret (Some "release is locked") <> Ret None /\
  exists pre name ns post stPre outPre invoked,
    comps = (pre ++ (name, ns) :: post)%list /\
    deleteComponents env st false pre = (stPre, (outPre ++ [""])%list, Ret None) /\
    deleteHelmRelease env stPre name ns false = (st, invoked, Ret (Some "release is locked")) /\
    out = (outPre ++ [("Deleting component '" ++ name ++ "'...")%string])%list.
Proof.
  intros env st comps out.
  assert (H1 : deleteComponents env st false comps = (st, out, Ret (Some "release is locked")))
    by (vm_compute; reflexivity).
  assert (H2 : Ret (Some "release is locked") <> Ret None) by discriminate.
  split; [exact H1 | split; [exact H2 |]].
  exact (deleteComponents_first_failure env false comps st st out _ H1 H2).
Defined.

Lemma deleteComponents_healthy_witness :
  let env := {| helmActionConfigErr := None; historyFailure := None; uninstallFailure := None;
                uninstallDeleteErr := None; readKubeconfigErr := None; clientsetErr := None;
                nsDeleteFailure := None; chartErr := None; valuesErr := None;
                installFailure := None; upgradeFailure := None |} in
  let st := {| releases := {[("monitoring", "prometheus-operator"); ("cert-manager", "cert-manager")]};
               namespaces := {["monitoring"; "cert-manager"; "kube-system"]};
               terminating := ∅ |} in
  let comps := [("prometheus-operator", "monitoring"); ("cert-manager", "cert-manager")] in
  Forall (fun '(name, ns) => name <> "" /\ ns <> "") comps /\
  deleteInfraHealthy env true /\ historyFailure env = None /\ uninstallFailure env = None /\
  uninstallDeleteErr env = None /\
  (true = true -> NoDup (map snd comps) /\ Forall (fun '(_, ns) => ns ∉ terminating st) comps) /\
  let '(st', out, r) := deleteComponents env st true comps in
  r = Ret None /\
  releases st' = releases st ∖ list_to_set (map (fun '(name, ns) => (ns, name)) comps) /\
  namespaces st' = namespaces st /\
  terminating st' = terminating st ∪
    (if true then list_to_set (map snd comps) ∩ namespaces st else ∅) /\
  out = (flat_map (fun '(name, _) =>
           [("Deleting component '" ++ name ++ "'...")%string;
            ("Successfully deleted component " ++ quote name ++ "!")%string]) comps ++ [""])%list.
Proof.
  intros env st comps.
  assert (H1 : Forall (fun '(name, ns) => name <> "" /\ ns <> "") comps)
    by (unfold comps; repeat constructor; discriminate).
  assert (H2 : deleteInfraHealthy env true) by (split; [reflexivity | intros _; repeat split]).
  assert (H3 : historyFailure env = None) by reflexivity.
  assert (H4 : uninstallFailure env = None) by reflexivity.
  assert (H5 : uninstallDeleteErr env = None) by reflexivity.
  assert (H6 : true = true -> NoDup (map snd comps) /\
                 Forall (fun '(_, ns) => ns ∉ terminating st) comps).
  { intros _. split; [apply (bool_decide_unpack _); vm_compute; reflexivity |].
    unfold comps, st. repeat constructor; simpl; set_solver. }
  split; [exact H1 | split; [exact H2 | split; [exact H3 | split; [exact H4 |
    split; [exact H5 | split; [exact H6 |]]]]]].
  exact (deleteComponents_healthy env st true comps H1 H2 H3 H4 H5 H6).
Defined.

(** X10 (upgradeComponent, with util.ReleaseExists modelled from the
    spec): a control-plane component is installed only when it has no
    release in kube-system; a successful call installs then upgrades a
    missing release and only upgrades an existing one; a failure to set up
    the Helm client, to load the chart or to get the values ends the run
    before any Helm action. *)
Theorem upgradeComponent_actions (env : helmEnv) (st : clusterState) (component : string) :
  let acts := fst (upgradeComponent env st component) in
  let r := snd (upgradeComponent env st component) in
  (CPInstall ∈ acts -> ("kube-system", component) ∉ releases st) /\
  (r = None -> acts = if bool_decide (("kube-system", component) ∈ releases st)
                      then [CPUpgrade] else [CPInstall; CPUpgrade]) /\
  (helmActionConfigErr env <> None \/ chartErr env <> None \/ valuesErr env <> None ->
   acts = [] /\ r <> None).
Proof.
  unfold upgradeComponent, ReleaseExists, historyRun.
  destruct (helmActionConfigErr env); [simpl; split; [set_solver | split; [discriminate | auto]] |].
  destruct (chartErr env); [simpl; split; [set_solver | split; [discriminate | auto]] |].
  destruct (valuesErr env); [simpl; split; [set_solver | split; [discriminate | auto]] |].
  assert (Hno : forall P : Prop, @None string <> None \/ @None string <> None \/ @None string <> None -> P)
    by (intros P H; exfalso; destruct H as [H | [H | H]]; apply H; reflexivity).
  destruct (historyFailure env); [simpl; split; [set_solver | split; [discriminate | apply Hno]] |].
  destruct (decide (("kube-system", component) ∈ releases st)) as [Hin | Habs].
  - rewrite bool_decide_true by exact Hin. simpl.
    destruct (upgradeFailure env); simpl.
    + split; [set_solver | split; [discriminate | apply Hno]].
    + split; [set_solver | split; [reflexivity | apply Hno]].
  - rewrite bool_decide_false by exact Habs. simpl.
    destruct (installFailure env); simpl.
    + split; [intros _; exact Habs | split; [discriminate | apply Hno]].
    + destruct (upgradeFailure env); simpl.
      * split; [intros _; exact Habs | split; [discriminate | apply Hno]].
      * split; [intros _; exact Habs | split; [reflexivity | apply Hno]].
Qed.

End HelmExtraFacts.

Module ConfirmFacts.
Import Confirm.
Local Open Scope Z_scope.
Local Open Scope list_scope.

(** A rune [skipSpace] passes over: a space other than a newline. *)
Lemma nonspace_not_crlf (r : Z) : isSpace r = false -> (r =? 13) = false /\ (r =? 10) = false.
Proof. intros H. split; apply Z.eqb_neq; intros ->; vm_compute in H; discriminate H. Qed.

Lemma skipSpace_app (pre inp : runes) :
  Forall (fun r => isSpace r = true /\ r <> 10) pre ->
  (inp = [] \/ exists r rest, inp = r :: rest /\ isSpace r = false) ->
  skipSpace (pre ++ inp) = inl inp.
Proof.
  induction pre as [|r pre IH]; intros Hpre Hinp.
  - destruct Hinp as [-> | (r & rest & -> & Hr)]; [reflexivity |].
    destruct (nonspace_not_crlf r Hr) as [H13 H10].
    cbn [skipSpace app]. rewrite H13, H10, Hr. reflexivity.
  - apply Forall_cons in Hpre as [[Hs Hn] Hpre]. cbn [skipSpace app].
    destruct ((r =? 13) && bool_decide (head (pre ++ inp) = Some 10)); [apply IH; assumption |].
    rewrite (proj2 (Z.eqb_neq r 10) Hn), Hs. apply IH; assumption.
Qed.

Lemma skipSpace_inv (inp out : runes) :
  skipSpace inp = inl out ->
  exists pre, inp = pre ++ out /\ Forall (fun r => isSpace r = true /\ r <> 10) pre /\
    (out = [] \/ exists r rest, out = r :: rest /\ isSpace r = false).
Proof.
  revert out. induction inp as [|r rest IH]; intros out H.
  - injection H as <-. exists []. split; [reflexivity | split; [constructor | left; reflexivity]].
  - cbn [skipSpace] in H.
    destruct ((r =? 13) && bool_decide (head rest = Some 10)) eqn:E1.
    + apply andb_true_iff in E1 as [E13 _]. apply Z.eqb_eq in E13. subst r.
      destruct (IH _ H) as (pre & -> & Hpre & Hout). exists (13 :: pre).
      split; [reflexivity | split; [constructor; [split; [reflexivity | discriminate] | exact Hpre] | exact Hout]].
    + destruct (r =? 10) eqn:E10; [discriminate H |].
      destruct (isSpace r) eqn:Es.
      * destruct (IH _ H) as (pre & -> & Hpre & Hout). exists (r :: pre).
        split; [reflexivity | split; [| exact Hout]].
        constructor; [split; [exact Es | apply Z.eqb_neq; exact E10] | exact Hpre].
      * injection H as <-. exists [].
        split; [reflexivity | split; [constructor | right; exists r, rest; auto]].
Qed.

Lemma takeToken_app (tok rest : runes) :
  Forall (fun r => isSpace r = false) tok ->
  (rest = [] \/ exists r rest', rest = r :: rest' /\ isSpace r = true) ->
  takeToken (tok ++ rest) = (tok, rest).
Proof.
  induction tok as [|r tok IH]; intros Htok Hrest.
  - destruct Hrest as [-> | (r & rest' & -> & Hr)]; simpl; [reflexivity | rewrite Hr; reflexivity].
  - apply Forall_cons in Htok as [Hr Htok]. simpl. rewrite Hr, IH by assumption. reflexivity.
Qed.

Lemma takeToken_inv (inp : runes) :
  let '(t, rem) := takeToken inp in
  inp = t ++ rem /\ Forall (fun r => isSpace r = false) t /\
  (rem = [] \/ exists r rest', rem = r :: rest' /\ isSpace r = true).
Proof.
  induction inp as [|r rest IH]; simpl.
  - split; [reflexivity | split; [constructor | left; reflexivity]].
  - destruct (isSpace r) eqn:Es.
    + split; [reflexivity | split; [constructor | right; exists r, rest; auto]].
    + destruct (takeToken rest) as [t rem]. destruct IH as (-> & Ht & Hrem).
      split; [reflexivity | split; [constructor; assumption | exact Hrem]].
Qed.

(** What [fmt.Scanln] stores: the first word of the line, after the spaces
    that precede it on that line. *)
Lemma scanlnString_app (pre tok rest : runes) :
  Forall (fun r => isSpace r = true /\ r <> 10) pre -> tok <> [] ->
  Forall (fun r => isSpace r = false) tok ->
  (rest = [] \/ exists r rest', rest = r :: rest' /\ isSpace r = true) ->
  scanlnString (pre ++ tok ++ rest) = Some tok.
Proof.
  intros Hpre Hne Htok Hrest. destruct tok as [|t0 tok']; [congruence |].
  pose proof Htok as Ht0. apply Forall_cons in Ht0 as [Ht0 _].
  assert (H1 : skipSpace (pre ++ (t0 :: tok') ++ rest) = inl ((t0 :: tok') ++ rest)).
  { apply skipSpace_app; [exact Hpre | right; exists t0, (tok' ++ rest); auto]. }
  assert (H2 : skipSpace ((t0 :: tok') ++ rest) = inl ((t0 :: tok') ++ rest)).
  { apply (skipSpace_app [] ((t0 :: tok') ++ rest)); [constructor | right; exists t0, (tok' ++ rest); auto]. }
  unfold scanlnString. rewrite H1. cbv beta iota. rewrite H2. cbv beta iota.
  rewrite takeToken_app by assumption. reflexivity.
Qed.

Lemma scanlnString_inv (inp t : runes) :
  scanlnString inp = Some t ->
  exists pre rest, inp = pre ++ t ++ rest /\
    Forall (fun r => isSpace r = true /\ r <> 10) pre /\
    (rest = [] \/ exists r rest', rest = r :: rest' /\ isSpace r = true).
Proof.
  unfold scanlnString. intros Hs.
  destruct (skipSpace inp) as [inp' | e] eqn:H1; [| discriminate Hs].
  destruct (skipSpace_inv _ _ H1) as (pre & Hst & Hpre & Hout).
  destruct Hout as [-> | (r & rest & -> & Hr)]; [discriminate Hs |].
  assert (H2 : skipSpace (r :: rest) = inl (r :: rest)).
  { apply (skipSpace_app [] (r :: rest)); [constructor | right; exists r, rest; auto]. }
  pose proof (takeToken_inv (r :: rest)) as Hk.
  destruct (takeToken (r :: rest)) as [t' rem] eqn:Etk.
  rewrite H2 in Hs. cbv beta iota in Hs. rewrite Etk in Hs. cbv beta iota in Hs.
  injection Hs as <-.
  destruct Hk as (Heq & _ & Hrem).
  exists pre, rem. split; [rewrite Hst, Heq; reflexivity | split; assumption].
Qed.

Lemma askForConfirmation_answer (message : string) (stdin : runes) :
  snd (askForConfirmation message stdin) = bool_decide (scanlnString stdin = Some yesRunes).
Proof.
  unfold askForConfirmation. simpl.
  destruct (scanlnString stdin) as [t |].
  - apply bool_decide_ext. split; [intros ->; reflexivity | congruence].
  - rewrite !bool_decide_false by discriminate. reflexivity.
Qed.

(** X11 (askForConfirmation, with fmt.Scanln): the answer is yes exactly
    when the first line of standard input is "yes" as its first word: any
    spaces other than a newline, then the runes y, e, s, then the end of
    input or a space (so "  yes" and "yes please" confirm, while "Yes",
    "yess", "y" or an empty line do not). *)
Theorem askForConfirmation_yes (message : string) (stdin : runes) :
  snd (askForConfirmation message stdin) = true <->
  exists pre rest, stdin = pre ++ yesRunes ++ rest /\
    Forall (fun r => isSpace r = true /\ r <> 10) pre /\
    (rest = [] \/ exists r rest', rest = r :: rest' /\ isSpace r = true).
Proof.
  rewrite askForConfirmation_answer, bool_decide_eq_true. split.
  - apply scanlnString_inv.
  - intros (pre & rest & -> & Hpre & Hrest).
    apply scanlnString_app; [exact Hpre | discriminate | repeat constructor | exact Hrest].
Qed.

End ConfirmFacts.

Module KubeconfigLegacyFacts.
Import KubeconfigLegacy.

(** X12 (getKubeconfig, getAssetDir, assetsKubeconfigPath of the earlier
    utils.go): the earlier getKubeconfig loads the cluster configuration
    first, so a configuration with errors makes it fail even when the
    --kubeconfig flag is set; otherwise it resolves the same path as the
    current getKubeconfig given the asset directory of the configured
    cluster ("" when there is none), which is the expanded flag when the
    flag is set. *)
Theorem legacy_getKubeconfig_config_first (flag env : string) (home : string + string)
  (cfg : configuredPlatform) :
  (forall diags, cfg = PlatformErr diags ->
     getKubeconfig flag env home cfg =
       inr ("reading kubeconfig path from configuration failed: " ++
            ("cannot load config: " ++ diags))) /\
  (forall assetDir, getAssetDir cfg = inl assetDir ->
     getKubeconfig flag env home cfg = Kubeconfig.getKubeconfig flag env home assetDir) /\
  (forall assetDir, getAssetDir cfg = inl assetDir -> flag <> "" ->
     getKubeconfig flag env home cfg = inl (Kubeconfig.expandKubeconfigPath home flag)).
Proof.
  split; [intros diags ->; reflexivity | split].
  - intros assetDir H. unfold getKubeconfig, assetsKubeconfigPath,
      Kubeconfig.getKubeconfig, Kubeconfig.assetsKubeconfigPath.
    rewrite H. destruct (negb (String.eqb assetDir "")); reflexivity.
  - intros assetDir H Hf. unfold getKubeconfig, assetsKubeconfigPath. rewrite H.
    destruct (negb (String.eqb assetDir "")); simpl;
      rewrite (proj2 (String.eqb_neq _ _) Hf); reflexivity.
Qed.

End KubeconfigLegacyFacts.

Module ComponentDeleteFacts.
Import Helm ComponentDelete.

Lemma getKubeconfig_inl (flag env : string) (home : string + string) (assetDir : string) :
  exists k, Kubeconfig.getKubeconfig flag env home assetDir = inl k.
Proof.
  unfold Kubeconfig.getKubeconfig, Kubeconfig.assetsKubeconfigPath.
  destruct (negb (String.eqb assetDir "")); eexists; reflexivity.
Qed.

(** X13 (runDelete, with askForConfirmation, getKubeconfig and
    deleteComponents): without --confirm, unless the line read from standard
    input is "yes", runDelete leaves the cluster unchanged; once the
    configuration and cluster load and every component (the arguments, or
    all configured components when there are none) is found, a deletion
    that is confirmed (by --confirm or by "yes") always reaches
    deleteComponents on those components in order, and the command
    succeeds exactly when deleteComponents does. *)
Theorem runDelete_confirmed_deletion (env : helmEnv) (st : clusterState)
  (confirm deleteNamespace : bool) (stdin : Confirm.runes) (inp : deleteInputs)
  (args : list string) :
  (confirm = false -> Confirm.scanlnString stdin <> Some Confirm.yesRunes ->
   fst (runDelete env st confirm deleteNamespace stdin inp args) = st) /\
  (forall comps,
   configDiags inp = None -> clusterConfigured inp = true -> clusterDiags inp = None ->
   getComponents (componentsGet inp)
     (match args with [] => configComponents inp | _ => args end) = inl comps ->
   (confirm = true \/ Confirm.scanlnString stdin = Some Confirm.yesRunes) ->
   fst (runDelete env st confirm deleteNamespace stdin inp args) =
     fst (fst (deleteComponents env st deleteNamespace comps)) /\
   (snd (runDelete env st confirm deleteNamespace stdin inp args) = DelDone <->
    snd (deleteComponents env st deleteNamespace comps) = Ret None)).
Proof.
  split.
  - intros -> Hno. unfold runDelete.
    destruct (configDiags inp); [reflexivity |].
    destruct (negb (clusterConfigured inp)); [reflexivity |].
    destruct (clusterDiags inp); [reflexivity |].
    destruct (getComponents _ _); [| reflexivity].
    rewrite ConfirmFacts.askForConfirmation_answer, bool_decide_false by exact Hno.
    reflexivity.
  - intros comps H1 H2 H3 Hget Hconf. unfold runDelete.
    rewrite H1, H2, H3. simpl negb. cbv iota. rewrite Hget.
    assert (Hask : negb confirm && negb (bool_decide
              (match Confirm.scanlnString stdin with Some t => t | None => [] end = Confirm.yesRunes))
              = false).
    { destruct Hconf as [-> | Hyes]; [reflexivity |].
      rewrite Hyes, bool_decide_true by reflexivity. apply andb_false_r. }
    rewrite Hask.
    destruct (getKubeconfig_inl (kubeconfigFlag inp) (kubeconfigEnv inp) (homeDir inp)
                (clusterAssetDir inp)) as [k Hk].
    rewrite Hk.
    destruct (deleteComponents env st deleteNamespace comps) as [[st' out] r].
    destruct r as [msg | [e |]]; simpl; split; try reflexivity; split; congruence.
Qed.

End ComponentDeleteFacts.

Module ReadinessExtraFacts.
Import Readiness.
Local Open Scope Z_scope.
Local Open Scope list_scope.

Lemma pollImmediate_app (condition : getResult -> list string * (bool * option string))
  (pre obs : list getResult) :
  Forall (fun o => snd (condition o) = (false, None)) pre ->
  pollImmediate condition (pre ++ obs) =
    (concat (map (fun o => fst (condition o)) pre) ++ fst (pollImmediate condition obs),
     snd (pollImmediate condition obs)).
Proof.
  induction pre as [|o pre IH]; intros Hpre; simpl.
  - destruct (pollImmediate condition obs); reflexivity.
  - apply Forall_cons in Hpre as [Ho Hpre].
    destruct (condition o) as [out [done err]]. simpl in Ho. injection Ho as -> ->.
    rewrite IH by exact Hpre. rewrite app_assoc. reflexivity.
Qed.

(** X14 (waitForDeployment): polls that are not decisive (not found yet, no
    replicas scheduled, or not all replicas available) only add their lines
    and the outcome is decided by the first decisive poll: a Get error ends
    the wait at once, without retrying, printing "error while waiting for
    the deployment: <err>", and a Deployment whose replicas are all
    available ends it with "Admission Webhook applied successfully"; in
    both cases the later polls are never made. *)
Theorem waitForDeployment_first_decisive (name : string) (pre obs : list getResult) :
  Forall (fun o => snd (deploymentCondition name o) = (false, None)) pre ->
  waitForDeployment name (pre ++ obs) =
    (concat (map (fun o => fst (deploymentCondition name o)) pre) ++
     fst (waitForDeployment name obs), tt) /\
  (forall err post, obs = GetError err :: post ->
     waitForDeployment name obs = (["error while waiting for the deployment: " ++ err]%string, tt)) /\
  (forall replicas post, replicas <> 0 -> obs = GetFound replicas replicas :: post ->
     waitForDeployment name obs = (["Admission Webhook applied successfully"%string], tt)).
Proof.
  intros Hpre. split; [| split].
  - unfold waitForDeployment. rewrite pollImmediate_app by exact Hpre.
    destruct (pollImmediate (deploymentCondition name) obs) as [out r].
    destruct r; simpl; rewrite ?app_assoc; reflexivity.
  - intros err post ->. reflexivity.
  - intros replicas post Hne ->. unfold waitForDeployment. simpl.
    rewrite (proj2 (Z.eqb_neq replicas 0) Hne), Z.eqb_refl. reflexivity.
Qed.

Lemma waitForDeployment_first_decisive_witness :
  Forall (fun o => snd (deploymentCondition "webhook" o) = (false, None))
    [GetNotFound; GetFound 0 0; GetFound 2 1] /\
  waitForDeployment "webhook" ([GetNotFound; GetFound 0 0; GetFound 2 1] ++
                               [GetError "connection refused"; GetFound 2 2]) =
    (concat (map (fun o => fst (deploymentCondition "webhook" o))
                 [GetNotFound; GetFound 0 0; GetFound 2 1]) ++
     fst (waitForDeployment "webhook" [GetError "connection refused"; GetFound 2 2]), tt) /\
  (forall err post, [GetError "connection refused"; GetFound 2 2] = GetError err :: post ->
     waitForDeployment "webhook" [GetError "connection refused"; GetFound 2 2] =
       (["error while waiting for the deployment: " ++ err]%string, tt)) /\
  (forall replicas post, replicas <> 0 ->
     [GetError "connection refused"; GetFound 2 2] = GetFound replicas replicas :: post ->
     waitForDeployment "webhook" [GetError "connection refused"; GetFound 2 2] =
       (["Admission Webhook applied successfully"%string], tt)).
Proof.
  assert (Hpre : Forall (fun o => snd (deploymentCondition "webhook" o) = (false, None))
                   [GetNotFound; GetFound 0 0; GetFound 2 1])
    by (repeat constructor).
  split; [exact Hpre |].
  exact (waitForDeployment_first_decisive "webhook" [GetNotFound; GetFound 0 0; GetFound 2 1]
           [GetError "connection refused"; GetFound 2 2] Hpre).
Defined.

End ReadinessExtraFacts.

Module KubeconfigExtraFacts.
Import Kubeconfig.

(** X15 (expandKubeconfigPath, with homedir.Expand): expanding a kubeconfig
    path never fails: when the home directory cannot be found, or the path
    is of the form "~name..." that homedir.Expand refuses, the path is
    returned unchanged; and, since homedir.Dir never answers an empty
    directory, a non-empty path never expands to an empty one. *)
Theorem expandKubeconfigPath_fallback (home : string + string) (path : string) :
  (forall err, home = inr err -> expandKubeconfigPath home path = path) /\
  (forall c rest, path = String "~"%char (String c rest) -> c <> "/"%char -> c <> "\"%char ->
     expandKubeconfigPath home path = path) /\
  ((forall dir, home = inl dir -> dir <> "") -> path <> "" ->
     expandKubeconfigPath home path <> "").
Proof.
  unfold expandKubeconfigPath, Expand. split; [| split].
  - intros err ->. destruct path as [| c rest]; [reflexivity |].
    destruct (negb (Ascii.eqb c "~"%char)); [reflexivity |].
    destruct rest as [| c2 r]; [reflexivity |].
    destruct (negb (Ascii.eqb c2 "/"%char) && negb (Ascii.eqb c2 "\"%char)); reflexivity.
  - intros c rest -> H1 H2.
    destruct (Ascii.eqb_spec c "/"%char) as [E | _]; [congruence |].
    destruct (Ascii.eqb_spec c "\"%char) as [E | _]; [congruence |].
    reflexivity.
  - intros Hhome Hne. destruct path as [| c rest]; [congruence |].
    destruct (negb (Ascii.eqb c "~"%char)); cbv beta iota zeta; [exact Hne |].
    destruct home as [dir | err].
    + pose proof (Hhome dir eq_refl) as Hd.
      assert (Hj : Join [dir; rest] <> "").
      { rewrite KubeconfigFacts.Join_nonempty_head by exact Hd. apply KubeconfigFacts.Clean_nonempty. }
      destruct rest as [| c2 r]; cbv beta iota; [exact Hj |].
      destruct (negb (Ascii.eqb c2 "/"%char) && negb (Ascii.eqb c2 "\"%char));
        cbv beta iota; [exact Hne | exact Hj].
    + destruct rest as [| c2 r]; cbv beta iota; [exact Hne |].
      destruct (negb (Ascii.eqb c2 "/"%char) && negb (Ascii.eqb c2 "\"%char));
        cbv beta iota; exact Hne.
Qed.

End KubeconfigExtraFacts.
